(** * Vanity sniper: the gateway client

    A shallow embedding of the [Client] class ([~/structures/client]): the
    watch set kept by [onDispatch], the claim race [snipe], the resume rule
    [canResume] and the frame handler [onMessage], followed by the properties
    of the specification that concern them.

    Conventions.
    - A JavaScript [number] that holds a count or a millisecond timestamp is a
      [Z]; a field that may be [undefined] or [null] is an [option].
    - [Date.now()] is an argument [now] of the handler that reads it; one
      handler run reads one clock value.
    - Arrays are objects with identity.  [config.guilds] and
      [this.rotatedGuilds] are references into a store of arrays, because
      [snipe] assigns one to the other and then mutates through both names.
    - Logging, socket traffic, timers, HTTP requests and the asynchronous
      call of [snipe] are recorded as a list of effects, in program order.
    - [snipe] is run against the list of replies the REST endpoint gives to
      its requests, one reply per request; it recurses on that list.  No
      other handler of the client runs while a race is under way. *)

From Stdlib Require Import ZArith String List Bool Lia.
From stdpp Require Import base option list gmap strings fin_maps.

Local Open Scope string_scope.
Local Open Scope list_scope.
Local Open Scope Z_scope.

(** ** JavaScript values *)

(** The values a vanity code takes in gateway and REST payloads. *)
Inductive JSValue :=
| JUndefined
| JNull
| JString (s : string).

#[global] Instance JSValue_eq_dec : EqDecision JSValue.
Proof. solve_decision. Defined.

(** [!!v]: a string is truthy unless it is empty. *)
Definition truthy (v : JSValue) : bool :=
  match v with
  | JString s => negb (bool_decide (s = ""))
  | _ => false
  end.

(** [a === b]. *)
Definition strict_eq (a b : JSValue) : bool := bool_decide (a = b).

(** [`${v}`] in a template literal. *)
Definition template (v : JSValue) : string :=
  match v with
  | JUndefined => "undefined"
  | JNull => "null"
  | JString s => s
  end.

(** [!!n] for an optional number: [undefined], [null] and [0] are falsy. *)
Definition truthy_num (n : option Z) : bool :=
  match n with
  | Some k => negb (Z.eqb k 0)
  | None => false
  end.

(** ** Payload records *)

Module Guild.
Record t := mk { id : string; name : string; vanity_url_code : JSValue }.
End Guild.

Record User := { username : string }.

(** The decoded reply of the vanity [PATCH]: [data.statusCode],
    [data.timeTaken] and the fields read from [JSON.parse(await data.text())].
    The reply is taken to carry the [timeTaken] the code reads from it. *)
Record Response := {
  statusCode : Z;
  timeTaken : Z;
  retry_after : option Z;
  code : JSValue;
  message : JSValue
}.

(** ** The store of arrays *)

Definition ref := nat.

Abbreviation Arrays := (gmap nat (list JSValue)).

Definition arr (h : Arrays) (r : ref) : list JSValue := default [] (h !! r).

(** [a.shift()]: removes and returns the first element; on an empty array it
    returns [undefined] and leaves the array as it is. *)
Definition shift (h : Arrays) (r : ref) : JSValue * Arrays :=
  match arr h r with
  | [] => (JUndefined, h)
  | x :: rest => (x, <[r := rest]> h)
  end.

(** [a.push(x)]. *)
Definition push (h : Arrays) (r : ref) (x : JSValue) : Arrays :=
  <[r := arr h r ++ [x]]> h.

(** [!a.length]. *)
Definition is_empty (l : list JSValue) : bool :=
  match l with [] => true | _ => false end.

(** [~a.indexOf(x)]: truthy exactly when [x] occurs in [a]. *)
Definition includes (l : list JSValue) (x : JSValue) : bool :=
  bool_decide (x ∈ l).

(** ** Configuration ([~/config]) *)

Module config.
Record t := mk {
  guilds : ref;
  rotateGuilds : bool;
  ignoreHostGuilds : bool;
  retries : Z;
  sameGuildSnipeTimeout : Z;
  exitOnSnipe : bool;
  webhook : string
}.

Definition set_guilds (r : ref) (c : t) : t :=
  {| guilds := r; rotateGuilds := rotateGuilds c;
     ignoreHostGuilds := ignoreHostGuilds c; retries := retries c;
     sameGuildSnipeTimeout := sameGuildSnipeTimeout c;
     exitOnSnipe := exitOnSnipe c; webhook := webhook c |}.
End config.

(** ** Gateway enumerations ([~/constants]) *)

Inductive OPCodes :=
| DISPATCH | HEARTBEAT | IDENTIFY | RESUME | RECONNECT
| INVALID_SESSION | HELLO | HEARTBEAT_ACK
| UNKNOWN_OP (n : Z).

Inductive ConnectionState :=
| CONNECTING | CONNECTED | IDENTIFYING | RESUMING | DISCOVERING | DISCONNECTED.

#[global] Instance ConnectionState_eq_dec : EqDecision ConnectionState.
Proof. solve_decision. Defined.

(** [ws.readyState]. *)
Inductive ReadyState := WS_CONNECTING | WS_OPEN | WS_CLOSING | WS_CLOSED.

#[global] Instance ReadyState_eq_dec : EqDecision ReadyState.
Proof. solve_decision. Defined.

(** Timer handles. *)
Inductive Timer :=
| HelloTimer (armed_at : Z)
| HeartbeatTimer (interval : option Z).

(** ** The client object *)

Record Client := {
  token : string;
  ws : option ReadyState;
  user : option User;
  guilds : option (gmap string Guild.t);
  helloTimeout : option Timer;
  heartbeatHandler : option Timer;
  sameGuildIntervals : gmap string Z;
  connectionStartTime : option Z;
  lastHeartbeatAckTime : option Z;
  heartbeatInterval : option Z;
  state : option ConnectionState;
  sessionId : option string;
  attempts : option Z;
  sequence : option Z;
  rotatedGuilds : ref
}.

Definition set_ws (v : option ReadyState) (c : Client) : Client :=
  {| token := token c; ws := v; user := user c; guilds := guilds c;
     helloTimeout := helloTimeout c; heartbeatHandler := heartbeatHandler c;
     sameGuildIntervals := sameGuildIntervals c;
     connectionStartTime := connectionStartTime c;
     lastHeartbeatAckTime := lastHeartbeatAckTime c;
     heartbeatInterval := heartbeatInterval c; state := state c;
     sessionId := sessionId c; attempts := attempts c;
     sequence := sequence c; rotatedGuilds := rotatedGuilds c |}.

Definition set_user (v : option User) (c : Client) : Client :=
  {| token := token c; ws := ws c; user := v; guilds := guilds c;
     helloTimeout := helloTimeout c; heartbeatHandler := heartbeatHandler c;
     sameGuildIntervals := sameGuildIntervals c;
     connectionStartTime := connectionStartTime c;
     lastHeartbeatAckTime := lastHeartbeatAckTime c;
     heartbeatInterval := heartbeatInterval c; state := state c;
     sessionId := sessionId c; attempts := attempts c;
     sequence := sequence c; rotatedGuilds := rotatedGuilds c |}.

Definition set_guilds (v : option (gmap string Guild.t)) (c : Client) : Client :=
  {| token := token c; ws := ws c; user := user c; guilds := v;
     helloTimeout := helloTimeout c; heartbeatHandler := heartbeatHandler c;
     sameGuildIntervals := sameGuildIntervals c;
     connectionStartTime := connectionStartTime c;
     lastHeartbeatAckTime := lastHeartbeatAckTime c;
     heartbeatInterval := heartbeatInterval c; state := state c;
     sessionId := sessionId c; attempts := attempts c;
     sequence := sequence c; rotatedGuilds := rotatedGuilds c |}.

Definition set_helloTimeout (v : option Timer) (c : Client) : Client :=
  {| token := token c; ws := ws c; user := user c; guilds := guilds c;
     helloTimeout := v; heartbeatHandler := heartbeatHandler c;
     sameGuildIntervals := sameGuildIntervals c;
     connectionStartTime := connectionStartTime c;
     lastHeartbeatAckTime := lastHeartbeatAckTime c;
     heartbeatInterval := heartbeatInterval c; state := state c;
     sessionId := sessionId c; attempts := attempts c;
     sequence := sequence c; rotatedGuilds := rotatedGuilds c |}.

Definition set_heartbeatHandler (v : option Timer) (c : Client) : Client :=
  {| token := token c; ws := ws c; user := user c; guilds := guilds c;
     helloTimeout := helloTimeout c; heartbeatHandler := v;
     sameGuildIntervals := sameGuildIntervals c;
     connectionStartTime := connectionStartTime c;
     lastHeartbeatAckTime := lastHeartbeatAckTime c;
     heartbeatInterval := heartbeatInterval c; state := state c;
     sessionId := sessionId c; attempts := attempts c;
     sequence := sequence c; rotatedGuilds := rotatedGuilds c |}.

Definition set_sameGuildIntervals (v : gmap string Z) (c : Client) : Client :=
  {| token := token c; ws := ws c; user := user c; guilds := guilds c;
     helloTimeout := helloTimeout c; heartbeatHandler := heartbeatHandler c;
     sameGuildIntervals := v; connectionStartTime := connectionStartTime c;
     lastHeartbeatAckTime := lastHeartbeatAckTime c;
     heartbeatInterval := heartbeatInterval c; state := state c;
     sessionId := sessionId c; attempts := attempts c;
     sequence := sequence c; rotatedGuilds := rotatedGuilds c |}.

Definition set_connectionStartTime (v : option Z) (c : Client) : Client :=
  {| token := token c; ws := ws c; user := user c; guilds := guilds c;
     helloTimeout := helloTimeout c; heartbeatHandler := heartbeatHandler c;
     sameGuildIntervals := sameGuildIntervals c; connectionStartTime := v;
     lastHeartbeatAckTime := lastHeartbeatAckTime c;
     heartbeatInterval := heartbeatInterval c; state := state c;
     sessionId := sessionId c; attempts := attempts c;
     sequence := sequence c; rotatedGuilds := rotatedGuilds c |}.

Definition set_lastHeartbeatAckTime (v : option Z) (c : Client) : Client :=
  {| token := token c; ws := ws c; user := user c; guilds := guilds c;
     helloTimeout := helloTimeout c; heartbeatHandler := heartbeatHandler c;
     sameGuildIntervals := sameGuildIntervals c;
     connectionStartTime := connectionStartTime c; lastHeartbeatAckTime := v;
     heartbeatInterval := heartbeatInterval c; state := state c;
     sessionId := sessionId c; attempts := attempts c;
     sequence := sequence c; rotatedGuilds := rotatedGuilds c |}.

Definition set_heartbeatInterval (v : option Z) (c : Client) : Client :=
  {| token := token c; ws := ws c; user := user c; guilds := guilds c;
     helloTimeout := helloTimeout c; heartbeatHandler := heartbeatHandler c;
     sameGuildIntervals := sameGuildIntervals c;
     connectionStartTime := connectionStartTime c;
     lastHeartbeatAckTime := lastHeartbeatAckTime c; heartbeatInterval := v;
     state := state c; sessionId := sessionId c; attempts := attempts c;
     sequence := sequence c; rotatedGuilds := rotatedGuilds c |}.

Definition set_state (v : option ConnectionState) (c : Client) : Client :=
  {| token := token c; ws := ws c; user := user c; guilds := guilds c;
     helloTimeout := helloTimeout c; heartbeatHandler := heartbeatHandler c;
     sameGuildIntervals := sameGuildIntervals c;
     connectionStartTime := connectionStartTime c;
     lastHeartbeatAckTime := lastHeartbeatAckTime c;
     heartbeatInterval := heartbeatInterval c; state := v;
     sessionId := sessionId c; attempts := attempts c;
     sequence := sequence c; rotatedGuilds := rotatedGuilds c |}.

Definition set_sessionId (v : option string) (c : Client) : Client :=
  {| token := token c; ws := ws c; user := user c; guilds := guilds c;
     helloTimeout := helloTimeout c; heartbeatHandler := heartbeatHandler c;
     sameGuildIntervals := sameGuildIntervals c;
     connectionStartTime := connectionStartTime c;
     lastHeartbeatAckTime := lastHeartbeatAckTime c;
     heartbeatInterval := heartbeatInterval c; state := state c;
     sessionId := v; attempts := attempts c; sequence := sequence c;
     rotatedGuilds := rotatedGuilds c |}.

Definition set_attempts (v : option Z) (c : Client) : Client :=
  {| token := token c; ws := ws c; user := user c; guilds := guilds c;
     helloTimeout := helloTimeout c; heartbeatHandler := heartbeatHandler c;
     sameGuildIntervals := sameGuildIntervals c;
     connectionStartTime := connectionStartTime c;
     lastHeartbeatAckTime := lastHeartbeatAckTime c;
     heartbeatInterval := heartbeatInterval c; state := state c;
     sessionId := sessionId c; attempts := v; sequence := sequence c;
     rotatedGuilds := rotatedGuilds c |}.

Definition set_sequence (v : option Z) (c : Client) : Client :=
  {| token := token c; ws := ws c; user := user c; guilds := guilds c;
     helloTimeout := helloTimeout c; heartbeatHandler := heartbeatHandler c;
     sameGuildIntervals := sameGuildIntervals c;
     connectionStartTime := connectionStartTime c;
     lastHeartbeatAckTime := lastHeartbeatAckTime c;
     heartbeatInterval := heartbeatInterval c; state := state c;
     sessionId := sessionId c; attempts := attempts c; sequence := v;
     rotatedGuilds := rotatedGuilds c |}.

(** ** Effects *)

(** One constructor for each [this.logger] call of the embedded methods; the
    arguments are the values interpolated into the message. *)
Inductive LogLine :=
| AttemptingToSnipe (vanity : JSValue)
| NoMoreGuilds
| RotatingGuilds
| Ratelimited (ms : Z) (vanity : JSValue)
| FailedSniping (vanity : JSValue) (ceiling : Z)
| Sniped (vanity : JSValue) (taken : Z)
| FailedToSnipe (vanity : JSValue) (taken : Z) (why : JSValue)
| LoggedIn (who : string) (size : nat)
| VanityChange (guild : string) (old new : JSValue)
| IgnoringVanityChange (guild : string)
| OnTimeout (guild : string) (remaining : Z)
| GuildDeleted (guild : string)
| IgnoringGuildDeletion (guild : string)
| Queued (guild : string) (vanity : JSValue)
| LoggedInByResuming (size : nat)
| Pong
| Ping
| FailedToHandleMessage
| ReceivedHello
| SendingIdentify
| AttemptingToResume
| ReconnectingSocket
| StartingHeartbeat
| SocketOpened.

(** What [broadcast] serialises: the opcode with its data. *)
Inductive Outbound :=
| Identify (tok : string)
| Resume (tok : string) (session_id : option string) (seq : option Z)
| Heartbeat (seq : Z).

Inductive Effect :=
| Log (l : LogLine)
| Send (f : Outbound)                      (* this.ws.send(...) *)
| CloseSocket (reason : Z)                 (* this.ws.close(code) *)
| OpenSocket                               (* new WebSocket(...) *)
| SetTimeout                               (* the hello timeout *)
| ClearTimeout
| SetInterval (ms : option Z)              (* the heartbeat *)
| ClearInterval
| Snipe (vanity : JSValue) (id : string)   (* this.snipe(vanity, id), not awaited *)
| Patch (target vanity : JSValue)          (* request(.../guilds/target/vanity-url) *)
| Sleep (ms : Z)
| WebhookSend (url content : string).

(** The claim races started by a handler, in order. *)
Fixpoint races (es : list Effect) : list (JSValue * string) :=
  match es with
  | [] => []
  | Snipe v i :: rest => (v, i) :: races rest
  | _ :: rest => races rest
  end.

(** The messages handed to the notification sink, in order. *)
Fixpoint notified (es : list Effect) : list (string * string) :=
  match es with
  | [] => []
  | WebhookSend url content :: rest => (url, content) :: notified rest
  | _ :: rest => notified rest
  end.

(** The vanity requests issued, as (target, candidate), in order. *)
Fixpoint requests (es : list Effect) : list (JSValue * JSValue) :=
  match es with
  | [] => []
  | Patch target vanity :: rest => (target, vanity) :: requests rest
  | _ :: rest => requests rest
  end.

(** ** Methods as actions on the client

    A method reads and writes [this], performs effects, and either returns
    or throws; what it wrote before throwing stays written. *)

Record Res (A : Type) := mkRes {
  after : Client;
  emitted : list Effect;
  value : option A      (* [None]: an exception propagates *)
}.
Arguments mkRes {A}.
Arguments after {A}.
Arguments emitted {A}.
Arguments value {A}.

Definition Act (A : Type) : Type := Client → Res A.

#[global] Instance Act_ret : MRet Act :=
  λ A a c, mkRes c [] (Some a).

#[global] Instance Act_bind : MBind Act :=
  λ A B k m c,
    let r := m c in
    match value r with
    | Some a =>
        let r' := k a (after r) in
        mkRes (after r') (emitted r ++ emitted r') (value r')
    | None => mkRes (after r) (emitted r) None
    end.

Definition throw {A} : Act A := λ c, mkRes c [] None.
Definition emit (e : Effect) : Act unit := λ c, mkRes c [e] (Some tt).
Definition log (l : LogLine) : Act unit := emit (Log l).
Definition this {A} (f : Client → A) : Act A := λ c, mkRes c [] (Some (f c)).
Definition assign (f : Client → Client) : Act unit := λ c, mkRes (f c) [] (Some tt).

(** [try { m } catch (e) { handler }]. *)
Definition try_catch (m handler : Act unit) : Act unit :=
  λ c,
    let r := m c in
    match value r with
    | Some _ => r
    | None =>
        let r' := handler (after r) in
        mkRes (after r') (emitted r ++ emitted r') (value r')
    end.

(** ** Watch set: [onDispatch] *)

Inductive Dispatch :=
| READY (session_id : option string) (usr : User) (gs : list Guild.t)
| GUILD_UPDATE (d : Guild.t)
| GUILD_DELETE (guild_id : option string)
| GUILD_CREATE (d : option Guild.t)
| RESUMED
| OTHER_EVENT (t : string).

(** The loop of the [READY] case over [payload.d.guilds]. *)
Definition snapshot (gs : list Guild.t) : gmap string Guild.t :=
  foldl (λ m g, if truthy (Guild.vanity_url_code g)
                then <[Guild.id g := g]> m else m) ∅ gs.

(** [!interval || (interval && interval <= Date.now())]. *)
Definition cooled_down (interval : option Z) (now : Z) : bool :=
  match interval with
  | None => true
  | Some t => (t =? 0) || (t <=? now)
  end.

(** [config.ignoreHostGuilds && ~config.guilds.indexOf(id)]. *)
Definition ignored (cfg : config.t) (h : Arrays) (id : string) : bool :=
  config.ignoreHostGuilds cfg && includes (arr h (config.guilds cfg)) (JString id).

(** [guild.vanity_url_code ?? 'NONE'] inside the log line. *)
Definition or_NONE (v : JSValue) : JSValue :=
  match v with
  | JString s => JString s
  | _ => JString "NONE"
  end.

(** [this.guilds.get(k)]; [None] when the key is [undefined] or absent. *)
Definition get_guild (m : gmap string Guild.t) (k : option string) : option Guild.t :=
  k ≫= (m !!.).

Definition onDispatch (cfg : config.t) (h : Arrays) (now : Z) (payload : Dispatch) : Act unit :=
  match payload with
  | READY session_id usr gs =>
      assign (set_sessionId session_id);;
      assign (set_user (Some usr));;
      assign (set_guilds (Some (snapshot gs)));;
      assign (set_state (Some CONNECTED));;
      log (LoggedIn (username usr) (size (snapshot gs)));;
      assign (set_attempts (Some 0))
  | GUILD_UPDATE guild =>
      watched ← this guilds;
      match watched with
      | None => throw
      | Some m =>
          let persisted := m !! Guild.id guild in
          interval ← this (λ c, sameGuildIntervals c !! Guild.id guild);
          assign (set_guilds (Some (<[Guild.id guild := guild]> m)));;
          match persisted with
          | Some persisted =>
              if strict_eq (Guild.vanity_url_code persisted) (Guild.vanity_url_code guild)
              then mret tt
              else
                log (VanityChange (Guild.name guild) (Guild.vanity_url_code persisted)
                       (or_NONE (Guild.vanity_url_code guild)));;
                if ignored cfg h (Guild.id guild)
                then log (IgnoringVanityChange (Guild.name guild))
                else if cooled_down interval now
                then
                  assign (λ c, set_sameGuildIntervals
                                 (delete (Guild.id guild) (sameGuildIntervals c)) c);;
                  emit (Snipe (Guild.vanity_url_code persisted) (Guild.id guild))
                else log (OnTimeout (Guild.name guild) (default 0 interval - now))
          | None => mret tt
          end
      end
  | GUILD_DELETE guild_id =>
      watched ← this guilds;
      match watched with
      | None => throw
      | Some m =>
          match get_guild m guild_id with
          | None => mret tt
          | Some guild =>
              interval ← this (λ c, sameGuildIntervals c !! Guild.id guild);
              assign (set_guilds (Some (delete (Guild.id guild) m)));;
              log (GuildDeleted (Guild.name guild));;
              if ignored cfg h (Guild.id guild)
              then log (IgnoringGuildDeletion (Guild.name guild))
              else if cooled_down interval now
              then
                assign (λ c, set_sameGuildIntervals
                               (delete (Guild.id guild) (sameGuildIntervals c)) c);;
                emit (Snipe (Guild.vanity_url_code guild) (Guild.id guild))
              else log (OnTimeout (Guild.name guild) (default 0 interval - now))
          end
      end
  | GUILD_CREATE d =>
      match d with
      | None => mret tt
      | Some guild =>
          if truthy (Guild.vanity_url_code guild)
          then
            log (Queued (Guild.name guild) (Guild.vanity_url_code guild));;
            watched ← this guilds;
            match watched with
            | None => throw
            | Some m => assign (set_guilds (Some (<[Guild.id guild := guild]> m)))
            end
          else mret tt
      end
  | RESUMED =>
      assign (set_state (Some CONNECTED));;
      sz ← this (λ c, size <$> guilds c);
      match sz with
      | None => throw
      | Some n => log (LoggedInByResuming n);; assign (set_attempts (Some 0))
      end
  | OTHER_EVENT _ => mret tt
  end.

(** ** Claim race: [snipe] *)

(** What [snipe] can touch: the process-wide [config], the arrays, and the
    client it runs on. *)
Record World := {
  cfg : config.t;
  heap : Arrays;
  client : Client
}.

Definition set_cfg (v : config.t) (w : World) : World :=
  {| cfg := v; heap := heap w; client := client w |}.

Definition set_heap (v : Arrays) (w : World) : World :=
  {| cfg := cfg w; heap := v; client := client w |}.

Definition set_client (v : Client) (w : World) : World :=
  {| cfg := cfg w; heap := heap w; client := v |}.

(** How an asynchronous call ends: its promise resolves, the process exits,
    or it is still waiting for a reply that has not come. *)
Inductive Completion :=
| Returned
| Exited (status : Z)
| Awaiting.

Record Run := {
  world : World;
  effects : list Effect;
  completion : Completion
}.

Definition done_with (w : World) (k : Completion) : Run :=
  {| world := w; effects := []; completion := k |}.

Definition say (es : list Effect) (r : Run) : Run :=
  {| world := world r; effects := es ++ effects r; completion := completion r |}.

(** The last three statements of [snipe]. *)
Definition set_cool_down (now : Z) (id : string) (w : World) : World :=
  set_client
    (set_sameGuildIntervals
       (<[id := now + config.sameGuildSnipeTimeout (cfg w)]>
          (sameGuildIntervals (client w)))
       (client w)) w.

(** The termination guard. *)
Definition no_targets (w : World) : bool :=
  let pool := arr (heap w) (config.guilds (cfg w)) in
  let rotated := arr (heap w) (rotatedGuilds (client w)) in
  (negb (config.rotateGuilds (cfg w)) && is_empty pool)
  || (config.rotateGuilds (cfg w) && is_empty pool && is_empty rotated).

(** [!config.guilds.length && config.rotateGuilds]. *)
Definition must_rotate (w : World) : bool :=
  is_empty (arr (heap w) (config.guilds (cfg w))) && config.rotateGuilds (cfg w).

(** [config.guilds = this.rotatedGuilds]: from here on both names denote one
    array. *)
Definition rotate (w : World) : World :=
  if must_rotate w
  then set_cfg (config.set_guilds (rotatedGuilds (client w)) (cfg w)) w
  else w.

(** [this.rotatedGuilds.push(config.guilds.shift())]. *)
Definition consume_target (w : World) : World :=
  let '(x, h1) := shift (heap w) (config.guilds (cfg w)) in
  set_heap (push h1 (rotatedGuilds (client w)) x) w.

(** [data.statusCode === 429 && json.retry_after]. *)
Definition rate_limited (data : Response) : bool :=
  (statusCode data =? 429) && truthy_num (retry_after data).

(** [snipe(vanity, id, tries)], run against the replies the REST endpoint
    gives to its successive requests.  [now] is the clock read by
    [new Date()].  In the recursive call the argument [tries++] has the value
    [tries] had before the increment. *)
Fixpoint snipe (replies : list Response) (now : Z) (w : World)
    (vanity : JSValue) (id : string) (tries : Z) : Run :=
  if no_targets w then
    say [Log (AttemptingToSnipe vanity); Log NoMoreGuilds] (done_with w (Exited 0))
  else
    let w1 := rotate w in
    let target := hd JUndefined (arr (heap w1) (config.guilds (cfg w1))) in
    say ([Log (AttemptingToSnipe vanity)]
           ++ (if must_rotate w then [Log RotatingGuilds] else [])
           ++ [Patch target vanity])
      match replies with
      | [] => done_with w1 Awaiting
      | data :: later =>
          if rate_limited data then
            let ms := default 0 (retry_after data) in
            say [Log (Ratelimited ms vanity); Sleep ms]
              (if config.retries (cfg w1) <? tries
               then snipe later now w1 vanity id tries
               else say [Log (FailedSniping vanity (config.retries (cfg w1)))]
                      (done_with w1 Returned))
          else if strict_eq (code data) vanity then
            let w2 := consume_target w1 in
            say [Log (Sniped vanity (timeTaken data));
                 WebhookSend (config.webhook (cfg w2))
                   ("Sniped https://discord.gg/" +:+ template vanity)]
              (if config.exitOnSnipe (cfg w2)
               then done_with w2 (Exited 0)
               else done_with (set_cool_down now id w2) Returned)
          else
            say [Log (FailedToSnipe vanity (timeTaken data) (message data))]
              (done_with (set_cool_down now id w1) Returned)
      end.

(** A dispatch handled on [w], with the race it starts run to its end. *)
Definition dispatch (replies : list Response) (now later : Z) (w : World)
    (payload : Dispatch) : Run :=
  let r := onDispatch (cfg w) (heap w) now payload (client w) in
  let w' := set_client (after r) w in
  match races (emitted r) with
  | [] => say (emitted r) (done_with w' Returned)
  | (vanity, id) :: _ => say (emitted r) (snipe replies later w' vanity id 0)
  end.

(** ** Gateway session *)

Section Session.

(** [HEARTBEAT_MAX_RESUME_THRESHOLD] of [~/constants]. *)
Variable HEARTBEAT_MAX_RESUME_THRESHOLD : Z.

(** [!this.lastHeartbeatAckTime]. *)
Definition never_acked (c : Client) : bool :=
  negb (truthy_num (lastHeartbeatAckTime c)).

(** The getter [canResume]. *)
Definition canResume (now : Z) (c : Client) : bool :=
  let threshold :=
    never_acked c
    || (now - default 0 (lastHeartbeatAckTime c) <=? HEARTBEAT_MAX_RESUME_THRESHOLD) in
  bool_decide (sessionId c ≠ None) && threshold.

(** A timer handle is truthy, [null] and [undefined] are not. *)
Definition armed (t : option Timer) : bool :=
  match t with Some _ => true | None => false end.

(** [broadcast(op, data)]; reading [this.ws.readyState] throws when
    [this.ws] is [null]. *)
Definition broadcast (f : Outbound) : Act unit :=
  sock ← this ws;
  match sock with
  | None => throw
  | Some WS_OPEN => emit (Send f)
  | Some _ => mret tt
  end.

Definition identify : Act unit :=
  log SendingIdentify;;
  assign (set_sequence (Some 0));;
  assign (set_sessionId None);;
  assign (set_state (Some IDENTIFYING));;
  tok ← this token;
  broadcast (Identify tok).

Definition resume : Act unit :=
  log AttemptingToResume;;
  assign (set_state (Some RESUMING));;
  tok ← this token;
  sid ← this sessionId;
  seq ← this sequence;
  broadcast (Resume tok sid seq).

Definition onOpen (now : Z) : Act unit :=
  log SocketOpened;;
  assign (set_state (Some CONNECTED));;
  can ← this (canResume now);
  (if can : bool then resume else identify);;
  assign (set_lastHeartbeatAckTime (Some now)).

(** [this.ws.close(code)]. *)
Definition close_socket (reason : Z) : Act unit :=
  sock ← this ws;
  match sock with
  | None => throw
  | Some _ => emit (CloseSocket reason);; assign (set_ws (Some WS_CLOSING))
  end.

Definition destroy (reason : Z) : Act unit :=
  close_socket reason;;
  assign (set_ws None);;
  assign (set_sessionId None).

(** [~states.indexOf(this.state)] with
    [states = [CONNECTED, CONNECTING]]. *)
Definition connected_or_connecting (c : Client) : bool :=
  bool_decide (state c = Some CONNECTED) || bool_decide (state c = Some CONNECTING).

Definition createSocket (now : Z) : Act unit :=
  busy ← this connected_or_connecting;
  if busy : bool then mret tt
  else
    sock ← this ws;
    (if bool_decide (sock = Some WS_OPEN) then close_socket 1000 else mret tt);;
    assign (λ c, set_attempts ((λ n, n + 1) <$> attempts c) c);;
    assign (set_connectionStartTime (Some now));;
    emit SetTimeout;;
    assign (set_helloTimeout (Some (HelloTimer now)));;
    emit OpenSocket;;
    assign (set_ws (Some WS_CONNECTING)).

Definition reconnect (now : Z) : Act unit :=
  log ReconnectingSocket;;
  destroy 4444;;
  assign (set_state (Some DISCOVERING));;
  createSocket now.

(** [heartbeat()]; [this.sequence ?? 0]. *)
Definition heartbeat : Act unit :=
  st ← this state;
  if bool_decide (st = Some CONNECTING) then mret tt
  else
    seq ← this sequence;
    broadcast (Heartbeat (default 0 seq));;
    log Ping.

Definition stopHeartbeat : Act unit :=
  emit ClearInterval;;
  assign (set_heartbeatHandler None).

Definition startHeartbeat : Act unit :=
  log StartingHeartbeat;;
  handler ← this heartbeatHandler;
  (if armed handler then stopHeartbeat else mret tt);;
  ms ← this heartbeatInterval;
  emit (SetInterval ms);;
  assign (set_heartbeatHandler (Some (HeartbeatTimer ms))).

Definition onHello (heartbeat_interval : option Z) : Act unit :=
  log ReceivedHello;;
  assign (set_heartbeatInterval heartbeat_interval);;
  startHeartbeat.

Definition clearHelloTimeout : Act unit :=
  timeout ← this helloTimeout;
  if armed timeout
  then emit ClearTimeout;; assign (set_helloTimeout None)
  else mret tt.

(** An inbound frame after [JSON.parse]: the sequence number [s] and, by
    opcode, the data the handler reads. *)
Inductive Body :=
| Hello (heartbeat_interval : option Z)
| HeartbeatAck
| InvalidSession (resumable : bool)
| Reconnect
| DispatchEvent (payload : Dispatch)
| Unhandled (opcode : Z).

Record Payload := { s : option Z; body : Body }.

Definition op (p : Payload) : OPCodes :=
  match body p with
  | Hello _ => HELLO
  | HeartbeatAck => HEARTBEAT_ACK
  | InvalidSession _ => INVALID_SESSION
  | Reconnect => RECONNECT
  | DispatchEvent _ => DISPATCH
  | Unhandled n => UNKNOWN_OP n
  end.

(** [if (payload.s) this.sequence = payload.s]. *)
Definition record_sequence (p : Payload) : Act unit :=
  if truthy_num (s p) then assign (set_sequence (s p)) else mret tt.

(** The [switch (payload.op)] of [onMessage]. *)
Definition handle_opcode (cfg : config.t) (h : Arrays) (now : Z) (p : Payload) : Act unit :=
  match body p with
  | Hello d => clearHelloTimeout;; onHello d
  | HeartbeatAck => log Pong;; assign (set_lastHeartbeatAckTime (Some now))
  | InvalidSession resumable => if resumable then resume else identify
  | Reconnect => reconnect now
  | DispatchEvent payload => onDispatch cfg h now payload
  | Unhandled _ => mret tt
  end.

(** [onMessage(data)]; [None] is a frame [JSON.parse] rejects. *)
Definition onMessage (cfg : config.t) (h : Arrays) (now : Z) (data : option Payload) : Act unit :=
  try_catch
    match data with
    | None => throw
    | Some p => record_sequence p;; handle_opcode cfg h now p
    end
    (log FailedToHandleMessage).

End Session.

(** ** Initial objects *)

(** The client as its field initialisers leave it, before the constructor
    dials: [sameGuildIntervals = new Map()], [rotatedGuilds = []] (the array
    at [r]), everything else [undefined]. *)
Definition new_Client (tok : string) (r : ref) : Client :=
  {| token := tok; ws := None; user := None; guilds := None;
     helloTimeout := None; heartbeatHandler := None;
     sameGuildIntervals := ∅; connectionStartTime := None;
     lastHeartbeatAckTime := None; heartbeatInterval := None;
     state := None; sessionId := None; attempts := None;
     sequence := None; rotatedGuilds := r |}.

(** [this.guilds.get(id)] on a client whose watch set may not exist yet. *)
Definition tracked (c : Client) (id : string) : option Guild.t :=
  guilds c ≫= (.!! id).

(** ** Vocabulary of the specification *)

(** The ignore-list names the resource: the option is on and the resource is
    one of the claim targets. *)
Definition on_ignore_list (cfg : config.t) (h : Arrays) (id : string) : Prop :=
  config.ignoreHostGuilds cfg = true ∧ JString id ∈ arr h (config.guilds cfg).

(** The resource has a cool-down entry whose expiry is still in the future. *)
Definition cooling (c : Client) (id : string) (now : Z) : Prop :=
  ∃ t, sameGuildIntervals c !! id = Some t ∧ now < t.

(** A change event for a watched resource: an update that carries another
    alias than the stored one, or the removal of the resource.  [id] and
    [name] are those the handler uses, [vacated] is the stored alias. *)
Inductive ChangeEvent (c : Client) : Dispatch → string → string → JSValue → Prop :=
| change_update g p :
    tracked c (Guild.id g) = Some p →
    Guild.vanity_url_code p ≠ Guild.vanity_url_code g →
    ChangeEvent c (GUILD_UPDATE g) (Guild.id g) (Guild.name g) (Guild.vanity_url_code p)
| change_delete k p :
    tracked c k = Some p →
    ChangeEvent c (GUILD_DELETE (Some k)) (Guild.id p) (Guild.name p) (Guild.vanity_url_code p).

(** Every watched resource has a non-empty alias. *)
Definition aliased_only (c : Client) : Prop :=
  ∀ id g, tracked c id = Some g → truthy (Guild.vanity_url_code g) = true.

(** The reply that ends a race: the first one that [snipe] does not answer
    with a retry.  [retry] is the outcome of [config.retries < tries], which
    is the same at every request of one race. *)
Fixpoint deciding (retry : bool) (replies : list Response) : option Response :=
  match replies with
  | [] => None
  | data :: later =>
      if rate_limited data && retry then deciding retry later else Some data
  end.


(** ** A scenario

    One claim target ["900"], one session that watches the resource ["1"]
    with alias ["abc"]; the resource ["2"] of the snapshot has no alias. *)
Module Scenario.

Definition config0 : config.t :=
  {| config.guilds := 0%nat; config.rotateGuilds := false;
     config.ignoreHostGuilds := false; config.retries := 3;
     config.sameGuildSnipeTimeout := 60000; config.exitOnSnipe := false;
     config.webhook := "https://hooks.example/1" |}.

(** [config.guilds] is the array at [0], [rotatedGuilds] the one at [1]. *)
Definition arrays0 : Arrays := {[ 0%nat := [JString "900"]; 1%nat := [] ]}.

Definition alpha : Guild.t := Guild.mk "1" "alpha" (JString "abc").
Definition beta : Guild.t := Guild.mk "2" "beta" JNull.

Definition client0 : Client :=
  after (onDispatch config0 arrays0 1000
           (READY (Some "session") {| username := "me" |} [alpha; beta])
           (new_Client "token" 1%nat)).

Definition world0 : World :=
  {| cfg := config0; heap := arrays0; client := client0 |}.

(** The same, with [ignoreHostGuilds] on and ["1"] among the targets. *)
Definition config_ignoring : config.t :=
  {| config.guilds := 0%nat; config.rotateGuilds := false;
     config.ignoreHostGuilds := true; config.retries := 3;
     config.sameGuildSnipeTimeout := 60000; config.exitOnSnipe := false;
     config.webhook := "https://hooks.example/1" |}.

Definition arrays_hosting : Arrays := {[ 0%nat := [JString "1"]; 1%nat := [] ]}.



(** The scenario once the only target has been used, rotation off. *)
Definition world_spent : World :=
  {| cfg := config0; heap := {[ 0%nat := []; 1%nat := [JString "900"] ]};
     client := client0 |}.

(** Replies of the REST endpoint. *)
Definition applied (alias : string) : Response :=
  {| statusCode := 200; timeTaken := 120; retry_after := None;
     code := JString alias; message := JUndefined |}.

Definition taken : Response :=
  {| statusCode := 400; timeTaken := 95; retry_after := None;
     code := JUndefined; message := JString "Invite code is either invalid or taken." |}.

Definition rate_limited_500 : Response :=
  {| statusCode := 429; timeTaken := 80; retry_after := Some 500;
     code := JUndefined; message := JString "You are being rate limited." |}.

End Scenario.

(** ** The token supply ([~/structures/tokens]) *)

Module Tokens.

Record t := mk {
  invalid : list string;
  tokens : list string;
  used : list string
}.

(** The two files of the [state] directory; [None] when the file does not
    exist or cannot be read, which the constructor treats alike. *)
Record Files := {
  tokens_txt : option string;
  invalidUserTokens_txt : option string
}.

Definition LF : Ascii.ascii := Ascii.ascii_of_nat 10.
Definition CR : Ascii.ascii := Ascii.ascii_of_nat 13.

(** The two values of [os.EOL]. *)
Definition LF_string : string := String LF "".
Definition CRLF_string : string := String CR (String LF "").

(** Puts a character in front of the first piece. *)
Definition push_char (c : Ascii.ascii) (pieces : list string) : list string :=
  match pieces with
  | [] => [String c ""]
  | piece :: rest => String c piece :: rest
  end.

(** [content.split(/\r?\n/)]: the separators are the line feeds, each with
    the carriage return in front of it, if there is one; an empty content
    gives one empty piece. *)
Fixpoint split_lines (content : string) : list string :=
  match content with
  | EmptyString => [EmptyString]
  | String c rest =>
      if Ascii.eqb c LF then EmptyString :: split_lines rest
      else
        match rest with
        | String c' rest' =>
            if Ascii.eqb c CR && Ascii.eqb c' LF
            then EmptyString :: split_lines rest'
            else push_char c (split_lines rest)
        | EmptyString => push_char c (split_lines rest)
        end
  end.

(** [content.split(/\r?\n/).filter(Boolean)]. *)
Definition parse (content : string) : list string :=
  filter (λ line : string, line ≠ "") (split_lines content).

(** [a.join(sep)]. *)
Fixpoint join (sep : string) (a : list string) : string :=
  match a with
  | [] => ""
  | x :: rest =>
      match rest with
      | [] => x
      | _ :: _ => x +:+ sep +:+ join sep rest
      end
  end.

(** [const idx = a.indexOf(x); if (idx > -1) a.splice(idx, 1)]. *)
Fixpoint remove_first (x : string) (a : list string) : list string :=
  match a with
  | [] => []
  | y :: rest => if bool_decide (y = x) then rest else y :: remove_first x rest
  end.

(** The constructor: both lists start empty and are read from the files
    that exist. *)
Definition load (fs : Files) : t :=
  {| invalid := from_option parse [] (invalidUserTokens_txt fs);
     tokens := from_option parse [] (tokens_txt fs);
     used := [] |}.

(** [persist()], with [os.EOL] as [eol]. *)
Definition persist (eol : string) (T : t) : Files :=
  {| tokens_txt := Some (join eol (tokens T));
     invalidUserTokens_txt := Some (join eol (invalid T)) |}.

(** [getNext()]: the first token, [None] for [undefined]; it persists and
    removes nothing. *)
Definition getNext (eol : string) (T : t) : option string * Files :=
  (head (tokens T), persist eol T).

Definition getAll (T : t) : list string := tokens T.

Definition add (token : string) (T : t) : t :=
  {| invalid := invalid T; tokens := tokens T ++ [token]; used := used T |}.

Definition invalidate (eol : string) (token : string) (T : t) : t * Files :=
  let T' := {| invalid := invalid T ++ [token];
               tokens := remove_first token (tokens T);
               used := remove_first token (used T) |} in
  (T', persist eol T').

End Tokens.

(** ** Reconnection: [shouldAttempt], [onClose] and the delayed dial *)

(** The log lines of [onClose] and of its timer. *)
Inductive Notice :=
| ClosedWithCode (tok : string) (code : Z) (reason : string)
| InvalidToken (tok : string)
| WaitingToReconnect (ms : option Z)
| AttemptingToReconnect (attempt : option Z) (tok : string)
| ConnectedTimedOut (attempt : option Z).

(** What the close handler and the session timers do: an effect of the
    methods above, a log line, or [setTimeout] of the delayed dial. *)
Inductive Happening :=
| Did (e : Effect)
| Noticed (n : Notice)
| DialAfter (ms : option Z).

(** Everything [onClose] can write: the client, the token supply shared by
    the clients, and the files of the supply. *)
Record Session := {
  session_client : Client;
  supply : Tokens.t;
  files : Tokens.Files
}.

Section Reconnection.

(** [MAX_CONNECTION_RETRIES] of [~/constants], [strip] of [~/utilities] and
    [os.EOL]. *)
Variable MAX_CONNECTION_RETRIES : Z.
Variable strip : string → string.
Variable EOL : string.

(** The getter [shouldAttempt]; [attempts] is [None] while it is [undefined]
    or [NaN], which no number equals. *)
Definition shouldAttempt (c : Client) : bool :=
  if connected_or_connecting c
     || bool_decide (attempts c = Some MAX_CONNECTION_RETRIES)
  then false else true.

(** [this.attempts * 1000]. *)
Definition backoff (c : Client) : option Z := (λ n, n * 1000) <$> attempts c.

(** [(this.attempts * 1000) !== 0]. *)
Definition backoff_nonzero (c : Client) : bool :=
  negb (bool_decide (backoff c = Some 0)).

(** [onClose(code, reason)]. *)
Definition onClose (code : Z) (reason : string) (S : Session) : Session * list Happening :=
  let c := session_client S in
  let stopped := stopHeartbeat (set_state (Some DISCONNECTED) c) in
  let c1 := after stopped in
  let before :=
    Noticed (ClosedWithCode (strip (token c)) code reason) :: map Did (emitted stopped) in
  let '(T1, fs1, invalidated) :=
    if code =? 4004
    then
      let '(T', fs') := Tokens.invalidate EOL (token c1) (supply S) in
      (T', fs', [Noticed (InvalidToken (strip (token c1)))])
    else (supply S, files S, []) in
  let S1 := {| session_client := c1; supply := T1; files := fs1 |} in
  if code =? 4444 then (S1, before ++ invalidated)
  else if shouldAttempt c1
  then (S1, before ++ invalidated
              ++ (if backoff_nonzero c1 then [Noticed (WaitingToReconnect (backoff c1))] else [])
              ++ [DialAfter (backoff c1)])
  else (S1, before ++ invalidated ++ [Noticed (ConnectedTimedOut (attempts c1))]).

(** The function given to [setTimeout] by [onClose]. *)
Definition delayed_dial (now : Z) (c : Client) : Client * list Happening :=
  if shouldAttempt c
  then
    let r := createSocket now c in
    (after r,
     Noticed (AttemptingToReconnect (attempts c) (strip (token c))) :: map Did (emitted r))
  else (c, []).

(** [new Client(token, tokens)]: the field initialisers, then
    [createSocket()]. *)
Definition new (now : Z) (tok : string) (r : ref) : Res unit :=
  createSocket now (new_Client tok r).

(** What reaches a session: the socket events bound in [createSocket], the
    two timers, and a change of [ws.readyState], which the socket library
    makes. *)
Inductive SessionEvent :=
| Message (now : Z) (data : option Payload)
| Opened (now : Z)
| ClosedWith (code : Z) (reason : string)
| HeartbeatTick
| DialTick (now : Z)
| ReadyStateIs (rs : ReadyState).

Variable HEARTBEAT_MAX_RESUME_THRESHOLD : Z.
Variables (cfg : config.t) (h : Arrays).

Definition on_client (f : Client → Client * list Happening) (S : Session)
    : Session * list Happening :=
  let '(c, hs) := f (session_client S) in
  ({| session_client := c; supply := supply S; files := files S |}, hs).

Definition acted (r : Res unit) : Client * list Happening :=
  (after r, map Did (emitted r)).

(** One event, handled by the method bound to it.  The races a dispatch
    starts are recorded, not run. *)
Definition handle (ev : SessionEvent) (S : Session) : Session * list Happening :=
  match ev with
  | Message now data => on_client (λ c, acted (onMessage cfg h now data c)) S
  | Opened now => on_client (λ c, acted (onOpen HEARTBEAT_MAX_RESUME_THRESHOLD now c)) S
  | ClosedWith code reason => onClose code reason S
  | HeartbeatTick => on_client (λ c, acted (heartbeat c)) S
  | DialTick now => on_client (delayed_dial now) S
  | ReadyStateIs rs =>
      on_client (λ c, (match ws c with
                       | Some _ => set_ws (Some rs) c
                       | None => c
                       end, [])) S
  end.

(** The events of a session's life, in order. *)
Fixpoint live (evs : list SessionEvent) (S : Session) : Session * list Happening :=
  match evs with
  | [] => (S, [])
  | ev :: rest =>
      let '(S1, hs1) := handle ev S in
      let '(S2, hs2) := live rest S1 in
      (S2, hs1 ++ hs2)
  end.

End Reconnection.

(** ** Vocabulary of the added properties *)

(** Every watched resource is stored under its own id. *)
Definition keyed (c : Client) : Prop :=
  ∀ k g, tracked c k = Some g → Guild.id g = k.


(** The heartbeat timers alive after some happenings, [n] being alive
    before: [setInterval] starts one, [clearInterval] of the handle the
    client holds stops one. *)
Fixpoint heartbeats (n : nat) (hs : list Happening) : nat :=
  match hs with
  | [] => n
  | Did (SetInterval _) :: rest => heartbeats (S n) rest
  | Did ClearInterval :: rest => heartbeats (pred n) rest
  | _ :: rest => heartbeats n rest
  end.

(** The handling of the frame reads [this.ws]. *)
Definition needs_socket (b : Body) : bool :=
  match b with
  | InvalidSession _ | Reconnect => true
  | _ => false
  end.


(** No carriage return and no line feed in the token. *)
Definition one_line (token : string) : Prop :=
  ∀ c, c ∈ list_ascii_of_string token → c ≠ Tokens.CR ∧ c ≠ Tokens.LF.

(** The delayed dials a close handler set up, with their delays. *)
Fixpoint dials (hs : list Happening) : list (option Z) :=
  match hs with
  | [] => []
  | DialAfter ms :: rest => ms :: dials rest
  | _ :: rest => dials rest
  end.

(** The event is a [READY] or a [RESUMED] dispatch. *)
Definition logs_in (ev : SessionEvent) : bool :=
  match ev with
  | Message _ (Some p) =>
      match body p with
      | DispatchEvent (READY _ _ _) | DispatchEvent RESUMED => true
      | _ => false
      end
  | _ => false
  end.

(** A result of [onDispatch] on [c]: it wrote the watch set, the cool-downs,
    the state and the attempt counter only, the counter only when the event
    logs the session in, and it emitted log lines and races only. *)
Definition dispatch_shaped (ev : Dispatch) (c : Client) (r : Res unit) : Prop :=
  (ws (after r) = ws c
   ∧ heartbeatHandler (after r) = heartbeatHandler c
   ∧ helloTimeout (after r) = helloTimeout c
   ∧ token (after r) = token c
   ∧ lastHeartbeatAckTime (after r) = lastHeartbeatAckTime c)
  ∧ (state (after r) = state c ∨ state (after r) = Some CONNECTED)
  ∧ (attempts (after r) = attempts c
     ∨ (attempts (after r) = Some 0
        ∧ ((∃ sid usr gs, ev = READY sid usr gs) ∨ ev = RESUMED)))
  ∧ Forall (λ e, ∃ l, e = Log l ∧ l ≠ FailedToHandleMessage ∨ ∃ v i, e = Snipe v i)
      (emitted r).

(** * Properties *)

(** ** Resume eligibility *)

Section ResumeEligibility.

Variable THRESHOLD : Z.

(** The getter, with no assumption on the stored time: a stored [0] reads
    as "never acknowledged". *)
Lemma canResume_spec now c :
  canResume THRESHOLD now c = true ↔
    sessionId c ≠ None ∧
    (lastHeartbeatAckTime c = None ∨ lastHeartbeatAckTime c = Some 0
     ∨ ∃ t, lastHeartbeatAckTime c = Some t ∧ now - t ≤ THRESHOLD).
Proof.
  unfold canResume, never_acked, truthy_num.
  rewrite andb_true_iff, bool_decide_eq_true, orb_true_iff, Z.leb_le.
  destruct (lastHeartbeatAckTime c) as [t|]; cbn.
  - rewrite negb_involutive, Z.eqb_eq. split.
    + intros [Hs [->|Ht]]; split; auto. right; right; eauto.
    + intros [Hs [?|[[= ->]|(t' & [= <-] & Ht)]]]; try done; split; auto.
  - split; intros [Hs _]; split; auto.
Qed.

(** C5. [canResume] holds exactly when the session identifier is not null
    and either no acknowledgment was ever recorded or the last one is at
    most the threshold old; with a null session identifier it is false
    whatever the acknowledgment time.  Acknowledgment times are readings of
    [Date.now()], which are not [0]. *)
Theorem canResume_iff now c :
  lastHeartbeatAckTime c ≠ Some 0 →
  (canResume THRESHOLD now c = true ↔
     sessionId c ≠ None ∧
     (lastHeartbeatAckTime c = None
      ∨ ∃ t, lastHeartbeatAckTime c = Some t ∧ now - t ≤ THRESHOLD))
  ∧ (sessionId c = None → canResume THRESHOLD now c = false).
Proof.
  intros Hwall. split.
  - rewrite canResume_spec. split.
    + intros [Hs [?|[?|?]]]; split; auto. done.
    + intros [Hs [?|?]]; split; auto.
  - intros Hs. unfold canResume. rewrite Hs. reflexivity.
Qed.

End ResumeEligibility.

(** A session acknowledged 1s ago is resumable under a 3 min threshold. *)
Lemma canResume_iff_witness :
  let c := set_lastHeartbeatAckTime (Some 1000)
             (set_sessionId (Some "session") (new_Client "token" 1%nat)) in
  lastHeartbeatAckTime c ≠ Some 0 ∧ canResume 180000 2000 c = true.
Proof.
  cbn zeta. split; [discriminate |].
  apply (canResume_iff 180000 2000); [discriminate |].
  split; [discriminate |]. right. exists 1000. split; [reflexivity | lia].
Defined.

(** ** Watch set *)

(** Runs the monadic plumbing of a method body. *)
Ltac run :=
  cbv beta iota zeta delta
    [mbind Act_bind mret Act_ret this assign emit log throw try_catch
     after emitted value];
  cbn [app].

Section WatchSet.

Variables (cfg : config.t) (h : Arrays) (now : Z).

Lemma ignored_iff id : ignored cfg h id = true ↔ on_ignore_list cfg h id.
Proof.
  unfold ignored, includes, on_ignore_list.
  by rewrite andb_true_iff, bool_decide_eq_true.
Qed.

Lemma not_ignored id : ¬ on_ignore_list cfg h id → ignored cfg h id = false.
Proof. rewrite <- ignored_iff. by destruct (ignored cfg h id). Qed.

Lemma cooled_down_false o : cooled_down o now = false → ∃ t, o = Some t ∧ now < t.
Proof.
  destruct o as [t|]; [|done]. cbn. rewrite orb_false_iff, Z.leb_gt.
  intros [_ ?]. eauto.
Qed.

Lemma not_cooling c id :
  ¬ cooling c id now → cooled_down (sameGuildIntervals c !! id) now = true.
Proof.
  intros Hn. destruct (cooled_down _ now) eqn:E; [done|].
  destruct Hn. by apply cooled_down_false.
Qed.

Lemma cooling_closed c id :
  0 ≤ now → cooling c id now → cooled_down (sameGuildIntervals c !! id) now = false.
Proof.
  intros Hnow (t & -> & Ht). cbn. rewrite orb_false_iff, Z.leb_gt, Z.eqb_neq. lia.
Qed.

(** The [GUILD_UPDATE] case, branch by branch. *)
Lemma onDispatch_GUILD_UPDATE g c m :
  guilds c = Some m →
  onDispatch cfg h now (GUILD_UPDATE g) c =
    let id := Guild.id g in
    let c1 := set_guilds (Some (<[id := g]> m)) c in
    match m !! id with
    | None => mkRes c1 [] (Some tt)
    | Some p =>
        let changed := Log (VanityChange (Guild.name g) (Guild.vanity_url_code p)
                              (or_NONE (Guild.vanity_url_code g))) in
        if strict_eq (Guild.vanity_url_code p) (Guild.vanity_url_code g)
        then mkRes c1 [] (Some tt)
        else if ignored cfg h id
        then mkRes c1 [changed; Log (IgnoringVanityChange (Guild.name g))] (Some tt)
        else if cooled_down (sameGuildIntervals c !! id) now
        then mkRes (set_sameGuildIntervals (delete id (sameGuildIntervals c)) c1)
               [changed; Snipe (Guild.vanity_url_code p) id] (Some tt)
        else mkRes c1
               [changed;
                Log (OnTimeout (Guild.name g)
                       (default 0 (sameGuildIntervals c !! id) - now))] (Some tt)
    end.
Proof.
  intros Hm. unfold onDispatch. run. rewrite Hm. run.
  destruct (m !! Guild.id g) as [p|]; [|reflexivity].
  destruct (strict_eq _ _); [reflexivity|].
  destruct (ignored _ _ _); [reflexivity|].
  destruct (cooled_down _ _); reflexivity.
Qed.

(** The [GUILD_DELETE] case, branch by branch. *)
Lemma onDispatch_GUILD_DELETE k c m :
  guilds c = Some m →
  onDispatch cfg h now (GUILD_DELETE k) c =
    match get_guild m k with
    | None => mkRes c [] (Some tt)
    | Some guild =>
        let id := Guild.id guild in
        let c1 := set_guilds (Some (delete id m)) c in
        let gone := Log (GuildDeleted (Guild.name guild)) in
        if ignored cfg h id
        then mkRes c1 [gone; Log (IgnoringGuildDeletion (Guild.name guild))] (Some tt)
        else if cooled_down (sameGuildIntervals c !! id) now
        then mkRes (set_sameGuildIntervals (delete id (sameGuildIntervals c)) c1)
               [gone; Snipe (Guild.vanity_url_code guild) id] (Some tt)
        else mkRes c1
               [gone;
                Log (OnTimeout (Guild.name guild)
                       (default 0 (sameGuildIntervals c !! id) - now))] (Some tt)
    end.
Proof.
  intros Hm. unfold onDispatch. run. rewrite Hm. run.
  destruct (get_guild m k) as [guild|]; [|reflexivity].
  destruct (ignored _ _ _); [reflexivity|].
  destruct (cooled_down _ _); reflexivity.
Qed.

Lemma tracked_Some c id g :
  tracked c id = Some g ↔ ∃ m, guilds c = Some m ∧ m !! id = Some g.
Proof.
  unfold tracked. destruct (guilds c) as [m|]; cbn; split.
  - eauto.
  - by intros (? & [= <-] & ?).
  - done.
  - by intros (? & ? & ?).
Qed.

(** C2. An update that changes the alias of a watched resource, and that
    neither the ignore-list nor the cool-down suppresses, starts the claim
    race for the alias that was stored, not for the one the event carries;
    the cool-down entry of the resource is cleared first. *)
Theorem update_races_for_vacated_alias c g p :
  tracked c (Guild.id g) = Some p →
  Guild.vanity_url_code p ≠ Guild.vanity_url_code g →
  ¬ on_ignore_list cfg h (Guild.id g) →
  ¬ cooling c (Guild.id g) now →
  let r := onDispatch cfg h now (GUILD_UPDATE g) c in
  races (emitted r) = [(Guild.vanity_url_code p, Guild.id g)]
  ∧ races (emitted r) ≠ [(Guild.vanity_url_code g, Guild.id g)]
  ∧ sameGuildIntervals (after r) !! Guild.id g = None.
Proof.
  intros (m & Hm & Hp)%tracked_Some Hne Hig Hcd. cbn zeta.
  rewrite (onDispatch_GUILD_UPDATE _ _ _ Hm). cbn zeta. rewrite Hp.
  unfold strict_eq. rewrite bool_decide_eq_false_2 by done.
  rewrite (not_ignored _ Hig), (not_cooling _ _ Hcd). cbn.
  split; [done|]. split; [congruence|]. apply lookup_delete_eq.
Qed.

(** C6, as the code has it.  For a change event of a watched resource and
    a clock that reads epoch milliseconds: while the cool-down entry of the
    resource expires in the future no race starts, the entry stays, and
    the skip is logged (as a time-out, or as ignored when the ignore-list
    names the resource); when no entry expires in the future and the
    ignore-list does not name the resource, the entry is removed and the
    race starts for the vacated alias. *)
Theorem cool_down_gate c ev id name vacated :
  ChangeEvent c ev id name vacated →
  0 ≤ now →
  let r := onDispatch cfg h now ev c in
  (cooling c id now →
     races (emitted r) = []
     ∧ sameGuildIntervals (after r) = sameGuildIntervals c
     ∧ (Log (IgnoringVanityChange name) ∈ emitted r
        ∨ Log (IgnoringGuildDeletion name) ∈ emitted r
        ∨ ∃ t, sameGuildIntervals c !! id = Some t
               ∧ Log (OnTimeout name (t - now)) ∈ emitted r))
  ∧ (¬ cooling c id now → ¬ on_ignore_list cfg h id →
     races (emitted r) = [(vacated, id)]
     ∧ sameGuildIntervals (after r) = delete id (sameGuildIntervals c)).
Proof.
  intros Hev Hnow. cbn zeta.
  destruct Hev as [g p (m & Hm & Hp)%tracked_Some Hne
                  | k p (m & Hm & Hp)%tracked_Some].
  - rewrite (onDispatch_GUILD_UPDATE _ _ _ Hm). cbn zeta. rewrite Hp.
    unfold strict_eq. rewrite bool_decide_eq_false_2 by done. split.
    + intros Hcool. rewrite (cooling_closed _ _ Hnow Hcool).
      destruct Hcool as (t & Ht & _). rewrite Ht.
      destruct (ignored cfg h (Guild.id g)); cbn; (split; [done|split; [done|]]).
      * left. set_solver.
      * right; right. exists t. split; [done|]. set_solver.
    + intros Hcool Hig. rewrite (not_ignored _ Hig), (not_cooling _ _ Hcool). by cbn.
  - rewrite (onDispatch_GUILD_DELETE _ _ _ Hm). cbn [get_guild mbind option_bind].
    rewrite Hp. cbn zeta. split.
    + intros Hcool. rewrite (cooling_closed _ _ Hnow Hcool).
      destruct Hcool as (t & Ht & _). rewrite Ht.
      destruct (ignored cfg h (Guild.id p)); cbn; (split; [done|split; [done|]]).
      * right; left. set_solver.
      * right; right. exists t. split; [done|]. set_solver.
    + intros Hcool Hig. rewrite (not_ignored _ Hig), (not_cooling _ _ Hcool). by cbn.
Qed.

(** What each branch of [onDispatch] does to the watch set: everything
    but an update that carries no alias keeps it free of resources
    without an alias, and [READY] establishes that from any state. *)
Lemma snapshot_aliased gs id g :
  snapshot gs !! id = Some g → truthy (Guild.vanity_url_code g) = true.
Proof.
  unfold snapshot.
  assert (∀ m0 : gmap string Guild.t,
             (∀ i x, m0 !! i = Some x → truthy (Guild.vanity_url_code x) = true) →
             foldl (λ m g, if truthy (Guild.vanity_url_code g)
                           then <[Guild.id g := g]> m else m) m0 gs !! id = Some g →
             truthy (Guild.vanity_url_code g) = true) as Hgen.
  { induction gs as [|a gs IH]; intros m0 Hm0; cbn.
    - apply Hm0.
    - apply IH. destruct (truthy (Guild.vanity_url_code a)) eqn:Ea; [|done].
      intros i x. rewrite lookup_insert. case_decide; [|apply Hm0].
      by intros [= <-]. }
  apply Hgen. intros i x. by rewrite lookup_empty.
Qed.

Lemma aliased_only_kept ev c :
  match ev with
  | GUILD_UPDATE g => truthy (Guild.vanity_url_code g) = true
  | _ => True
  end →
  (match ev with READY _ _ _ => True | _ => aliased_only c end) →
  aliased_only (after (onDispatch cfg h now ev c)).
Proof.
  intros Hev Hc. destruct ev as [sid usr gs|g|k|[g|]| |t]; cbn in Hc.
  - intros id g. unfold onDispatch. run. cbn. apply snapshot_aliased.
  - destruct (guilds c) as [m|] eqn:Hm.
    + rewrite (onDispatch_GUILD_UPDATE _ _ _ Hm). cbn zeta.
      assert (aliased_only (set_guilds (Some (<[Guild.id g := g]> m)) c)) as H1.
      { intros id x. unfold tracked. cbn. rewrite lookup_insert.
        case_decide; [by intros [= <-]|]. intros Hx. apply (Hc id).
        unfold tracked. by rewrite Hm. }
      destruct (m !! Guild.id g); [|done].
      destruct (strict_eq _ _); [done|].
      destruct (ignored _ _ _); [done|].
      destruct (cooled_down _ _); done.
    + unfold onDispatch. run. by rewrite Hm.
  - destruct (guilds c) as [m|] eqn:Hm.
    + rewrite (onDispatch_GUILD_DELETE _ _ _ Hm).
      destruct (get_guild m k) as [guild|]; [|done]. cbn zeta.
      assert (aliased_only (set_guilds (Some (delete (Guild.id guild) m)) c)) as H1.
      { intros id x. unfold tracked. cbn. rewrite lookup_delete.
        case_decide; [done|]. intros Hx. apply (Hc id).
        unfold tracked. by rewrite Hm. }
      destruct (ignored _ _ _); [done|].
      destruct (cooled_down _ _); done.
    + unfold onDispatch. run. by rewrite Hm.
  - unfold onDispatch. destruct (truthy (Guild.vanity_url_code g)) eqn:Hg; [|done].
    run. destruct (guilds c) as [m|] eqn:Hm; [|done]. cbn.
    intros id x. unfold tracked. cbn. rewrite lookup_insert.
    case_decide; [by intros [= <-]|]. intros Hx. apply (Hc id).
    unfold tracked. by rewrite Hm.
  - done.
  - unfold onDispatch. run. cbn. destruct (guilds c) as [m|] eqn:Hm; cbn.
    + intros id x. unfold tracked. cbn. rewrite Hm. intros Hx. apply (Hc id).
      unfold tracked. by rewrite Hm.
    + intros id x. unfold tracked. cbn. by rewrite Hm.
  - done.
Qed.

End WatchSet.

(** The update of the specification: stored alias ["abc"], new alias
    ["xyz"]; the race is for ["abc"]. *)
Lemma update_races_for_vacated_alias_witness :
  let g := Guild.mk "1" "alpha" (JString "xyz") in
  let r := onDispatch Scenario.config0 Scenario.arrays0 2000 (GUILD_UPDATE g)
             Scenario.client0 in
  tracked Scenario.client0 "1" = Some Scenario.alpha
  ∧ races (emitted r) = [(JString "abc", "1")].
Proof.
  cbn zeta. split; [vm_compute; reflexivity|].
  apply (update_races_for_vacated_alias Scenario.config0 Scenario.arrays0 2000
           Scenario.client0 (Guild.mk "1" "alpha" (JString "xyz")) Scenario.alpha).
  - vm_compute; reflexivity.
  - discriminate.
  - intros [H _]; discriminate H.
  - intros (t & Ht & _); vm_compute in Ht; discriminate Ht.
Defined.

(** C6, as stated, fails: with [ignoreHostGuilds] on and the resource among
    the claim targets, a change event of a watched resource that has no
    cool-down entry starts no race. *)
Lemma ignored_change_starts_no_race :
  let g := Guild.mk "1" "alpha" (JString "xyz") in
  let r := onDispatch Scenario.config_ignoring Scenario.arrays_hosting 2000
             (GUILD_UPDATE g) Scenario.client0 in
  ChangeEvent Scenario.client0 (GUILD_UPDATE g) "1" "alpha" (JString "abc")
  ∧ sameGuildIntervals Scenario.client0 !! "1" = None
  ∧ races (emitted r) = [].
Proof.
  cbn zeta. split; [|split; vm_compute; reflexivity].
  apply (change_update Scenario.client0 (Guild.mk "1" "alpha" (JString "xyz"))
           Scenario.alpha).
  - vm_compute; reflexivity.
  - discriminate.
Qed.

(** A second update of ["1"] one second into a cool-down that lasts until
    [5000] is skipped with the time-out logged; nothing else changes. *)
Lemma cool_down_gate_witness :
  let c := set_sameGuildIntervals {[ "1" := 5000 ]} Scenario.client0 in
  let g := Guild.mk "1" "alpha" (JString "xyz") in
  let r := onDispatch Scenario.config0 Scenario.arrays0 2000 (GUILD_UPDATE g) c in
  cooling c "1" 2000
  ∧ races (emitted r) = []
  ∧ sameGuildIntervals (after r) = sameGuildIntervals c.
Proof.
  cbn zeta.
  assert (cooling (set_sameGuildIntervals {[ "1" := 5000 ]} Scenario.client0) "1" 2000)
    as Hcool.
  { exists 5000. split; [vm_compute; reflexivity | lia]. }
  split; [exact Hcool|].
  pose proof (cool_down_gate Scenario.config0 Scenario.arrays0 2000
                (set_sameGuildIntervals {[ "1" := 5000 ]} Scenario.client0)
                (GUILD_UPDATE (Guild.mk "1" "alpha" (JString "xyz")))
                "1" "alpha" (JString "abc")) as Hgate.
  cbn zeta in Hgate.
  destruct Hgate as [Hskip _].
  - apply (change_update _ (Guild.mk "1" "alpha" (JString "xyz")) Scenario.alpha).
    + vm_compute; reflexivity.
    + discriminate.
  - lia.
  - destruct (Hskip Hcool) as (Hr & Hi & _). split; [exact Hr | exact Hi].
Defined.

(** C3, on the code: an update that takes the alias of the watched resource
    ["1"] away leaves the resource in the watch set with a [null] alias (and
    starts the race for ["abc"]). *)
Theorem update_tracks_resource_without_alias :
  let g := Guild.mk "1" "alpha" JNull in
  let r := onDispatch Scenario.config0 Scenario.arrays0 2000 (GUILD_UPDATE g)
             Scenario.client0 in
  aliased_only Scenario.client0
  ∧ races (emitted r) = [(JString "abc", "1")]
  ∧ tracked (after r) "1" = Some g
  ∧ ¬ aliased_only (after r).
Proof.
  cbn zeta. split; [|split; [|split]].
  - apply (aliased_only_kept Scenario.config0 Scenario.arrays0 1000
             (READY (Some "session") {| username := "me" |}
                [Scenario.alpha; Scenario.beta])); exact I.
  - vm_compute; reflexivity.
  - vm_compute; reflexivity.
  - intros Hinv. specialize (Hinv "1" (Guild.mk "1" "alpha" JNull)).
    discriminate Hinv. vm_compute; reflexivity.
Qed.

(** C10. A [GUILD_DELETE] for a guild that is not in the watch set changes
    nothing: the client (watch set and cool-down map included), the
    configuration and the arrays of claim targets are as before, no effect is
    performed and no race starts. *)
Theorem delete_of_unwatched_is_noop replies now later w k :
  k ≫= tracked (client w) = None →
  let r := dispatch replies now later w (GUILD_DELETE k) in
  world r = w ∧ effects r = [] ∧ completion r = Returned.
Proof.
  intros Hk. cbn zeta. unfold dispatch.
  assert (after (onDispatch (cfg w) (heap w) now (GUILD_DELETE k) (client w)) = client w
          ∧ emitted (onDispatch (cfg w) (heap w) now (GUILD_DELETE k) (client w)) = [])
    as [Ha He].
  { destruct (guilds (client w)) as [m|] eqn:Hm.
    - rewrite (onDispatch_GUILD_DELETE _ _ _ _ _ _ Hm).
      assert (get_guild m k = None) as ->; [|done].
      destruct k as [id|]; [|done]. cbn in Hk. unfold tracked in Hk.
      by rewrite Hm in Hk.
    - unfold onDispatch. run. by rewrite Hm. }
  rewrite Ha, He. cbn. by destruct w.
Qed.

(** The resource ["7"] is not watched in the scenario. *)
Lemma delete_of_unwatched_is_noop_witness :
  let r := dispatch [Scenario.applied "abc"] 2000 2150 Scenario.world0
             (GUILD_DELETE (Some "7")) in
  tracked Scenario.client0 "7" = None
  ∧ world r = Scenario.world0 ∧ effects r = [] ∧ completion r = Returned.
Proof.
  cbn zeta. split; [vm_compute; reflexivity|].
  apply (delete_of_unwatched_is_noop [Scenario.applied "abc"] 2000 2150
           Scenario.world0 (Some "7")).
  vm_compute; reflexivity.
Defined.

(** ** Claim race *)

Section Arrays.

Implicit Types (h : Arrays) (r : ref) (l : list JSValue).



Lemma cfg_consume_target w : cfg (consume_target w) = cfg w.
Proof. unfold consume_target. by destruct (shift _ _). Qed.

Lemma client_consume_target w : client (consume_target w) = client w.
Proof. unfold consume_target. by destruct (shift _ _). Qed.



End Arrays.

Section ClaimRace.

Variables (now : Z) (vanity : JSValue) (id : string) (tries : Z).

Lemma world_say es r : world (say es r) = world r.
Proof. done. Qed.

Lemma completion_say es r : completion (say es r) = completion r.
Proof. done. Qed.

Lemma effects_say es r : effects (say es r) = es ++ effects r.
Proof. done. Qed.

Lemma notified_app es es' : notified (es ++ es') = notified es ++ notified es'.
Proof.
  induction es as [|e es IH]; [done|]. destruct e; cbn; by rewrite ?IH.
Qed.

Lemma rotate_keeps_targets w : no_targets w = false → no_targets (rotate w) = false.
Proof.
  unfold rotate, must_rotate, no_targets.
  destruct (config.rotateGuilds (cfg w)) eqn:Hr;
    destruct (arr (heap w) (config.guilds (cfg w))) eqn:Hp; cbn; rewrite ?Hr, ?Hp; cbn; try done.
  by destruct (arr (heap w) (rotatedGuilds (client w))).
Qed.

Lemma rotate_idem w : rotate (rotate w) = rotate w.
Proof.
  unfold rotate at 2 3. destruct (must_rotate w) eqn:Hm; unfold rotate.
  - destruct (must_rotate (set_cfg _ w)); [|done]. done.
  - by rewrite Hm.
Qed.

Lemma retries_rotate w : config.retries (cfg (rotate w)) = config.retries (cfg w).
Proof. unfold rotate. by destruct (must_rotate w). Qed.


Lemma patch_logged (e : Effect) es es' es'' : e ∈ (es ++ es' ++ [e]) ++ es''.
Proof. rewrite !elem_of_app, elem_of_cons. auto. Qed.

(** How a race ends, by the reply that decides it. *)
Lemma snipe_outcome replies w :
  no_targets w = false →
  let w1 := rotate w in
  let r := snipe replies now w vanity id tries in
  Patch (hd JUndefined (arr (heap w1) (config.guilds (cfg w1)))) vanity ∈ effects r
  ∧ match deciding (config.retries (cfg w) <? tries) replies with
    | None => world r = w1 ∧ completion r = Awaiting ∧ notified (effects r) = []
    | Some data =>
        if rate_limited data
        then world r = w1 ∧ completion r = Returned ∧ notified (effects r) = []
        else if strict_eq (code data) vanity
        then notified (effects r)
             = [(config.webhook (cfg w1),
                 "Sniped https://discord.gg/" +:+ template vanity)]
             ∧ (if config.exitOnSnipe (cfg w1)
                then world r = consume_target w1 ∧ completion r = Exited 0
                else world r = set_cool_down now id (consume_target w1)
                     ∧ completion r = Returned)
        else world r = set_cool_down now id w1 ∧ completion r = Returned
             ∧ notified (effects r) = []
    end.
Proof.
  revert w. induction replies as [|data later IH]; intros w Hw; cbn zeta.
  - cbn [snipe deciding]. rewrite Hw. rewrite effects_say, world_say, completion_say.
    split; [apply patch_logged|]. rewrite notified_app.
    by destruct (must_rotate w).
  - cbn [snipe deciding]. rewrite Hw.
    rewrite effects_say, world_say, completion_say, notified_app.
    split; [apply patch_logged|].
    assert (notified ([Log (AttemptingToSnipe vanity)]
                        ++ (if must_rotate w then [Log RotatingGuilds] else [])
                        ++ [Patch (hd JUndefined
                                     (arr (heap (rotate w))
                                        (config.guilds (cfg (rotate w))))) vanity]) = [])
      as -> by (by destruct (must_rotate w)).
    cbn [app].
    destruct (rate_limited data) eqn:Hrl; cbn [andb].
    + rewrite retries_rotate.
      destruct (config.retries (cfg w) <? tries) eqn:Hretry.
      * rewrite world_say, completion_say, effects_say.
        specialize (IH (rotate w) (rotate_keeps_targets _ Hw)). cbn zeta in IH.
        rewrite rotate_idem, retries_rotate, Hretry in IH.
        destruct IH as [_ IH]. exact IH.
      * rewrite Hrl. by cbn.
    + rewrite Hrl. destruct (strict_eq (code data) vanity) eqn:Hok.
      * rewrite cfg_consume_target.
        destruct (config.exitOnSnipe (cfg (rotate w))); by cbn.
      * by cbn.
Qed.

(** C8. A claim attempted when no target is left -- the active pool is
    empty and rotation is off, or rotation is on and the rotated-back pool
    is empty too -- logs that and exits the process with status 0; no
    request is issued. *)
Theorem no_targets_exits replies w :
  let pool := arr (heap w) (config.guilds (cfg w)) in
  let rotated := arr (heap w) (rotatedGuilds (client w)) in
  (config.rotateGuilds (cfg w) = false ∧ pool = [])
  ∨ (config.rotateGuilds (cfg w) = true ∧ pool = [] ∧ rotated = []) →
  snipe replies now w vanity id tries
  = {| world := w;
       effects := [Log (AttemptingToSnipe vanity); Log NoMoreGuilds];
       completion := Exited 0 |}.
Proof.
  cbn zeta. intros Hnone.
  assert (no_targets w = true) as Hw.
  { unfold no_targets. destruct Hnone as [[-> ->]|(-> & -> & ->)]; done. }
  destruct replies; cbn [snipe]; by rewrite Hw.
Qed.


(** What the retry test does.  With [tries] not above the ceiling -- every
    race a handler starts, for a ceiling that is not negative -- the first
    rate-limited reply ends the race: one request, one sleep, no retry. *)
Lemma rate_limit_gives_up_at_once data later w :
  no_targets w = false →
  rate_limited data = true →
  tries ≤ config.retries (cfg w) →
  let r := snipe (data :: later) now w vanity id tries in
  requests (effects r)
  = [(hd JUndefined (arr (heap (rotate w)) (config.guilds (cfg (rotate w)))), vanity)]
  ∧ completion r = Returned
  ∧ world r = rotate w.
Proof.
  intros Hw Hrl Hle. cbn zeta. cbn [snipe]. rewrite Hw, Hrl, retries_rotate.
  rewrite (proj2 (Z.ltb_ge _ _) Hle).
  split; [|done]. cbn. by destruct (must_rotate w).
Qed.

(** With [tries] above the ceiling it retries with [tries] unchanged, so
    replies that are all rate limits never end the race. *)
Lemma rate_limit_retries_without_end replies w :
  no_targets w = false →
  config.retries (cfg w) < tries →
  Forall (λ data, rate_limited data = true) replies →
  completion (snipe replies now w vanity id tries) = Awaiting.
Proof.
  intros Hw Hlt Hall.
  destruct (snipe_outcome replies w Hw) as [_ Hend]. cbn zeta in Hend.
  rewrite (proj2 (Z.ltb_lt _ _) Hlt) in Hend.
  assert (deciding true replies = None) as Hnone.
  { clear Hend. induction Hall as [|data later Hd _ IH]; [done|].
    cbn [deciding]. rewrite Hd. exact IH. }
  rewrite Hnone in Hend. by destruct Hend as (_ & ? & _).
Qed.


End ClaimRace.

(** The pool of the spent scenario is empty and rotation is off. *)
Lemma no_targets_exits_witness :
  let r := snipe [Scenario.applied "abc"] 2650 Scenario.world_spent (JString "abc") "1" 0 in
  arr (heap Scenario.world_spent) (config.guilds (cfg Scenario.world_spent)) = []
  ∧ completion r = Exited 0
  ∧ requests (effects r) = [].
Proof.
  cbn zeta. split; [reflexivity|].
  rewrite (no_targets_exits 2650 (JString "abc") "1" 0 [Scenario.applied "abc"]
             Scenario.world_spent).
  - split; reflexivity.
  - left. split; reflexivity.
Defined.



(** C1, on the code: the ceiling is 3 and the race starts with [tries = 0];
    the first reply is a rate limit with [retry_after = 500], the second
    would have applied the alias.  The race sleeps 500 ms and gives up: one
    request, no retry. *)
Theorem rate_limited_race_gives_up_without_retry :
  let r := snipe [Scenario.rate_limited_500; Scenario.applied "abc"] 2650
             Scenario.world0 (JString "abc") "1" 0 in
  config.retries (cfg Scenario.world0) = 3
  ∧ effects r
    = [Log (AttemptingToSnipe (JString "abc"));
       Patch (JString "900") (JString "abc");
       Log (Ratelimited 500 (JString "abc"));
       Sleep 500;
       Log (FailedSniping (JString "abc") 3)]
  ∧ completion r = Returned.
Proof. vm_compute. repeat split; reflexivity. Qed.

(** C4, on the code: the request is issued, the reply is a rate limit, the
    race gives up and returns, and the resource ["1"] has no cool-down
    entry. *)
Theorem rate_limited_race_sets_no_cool_down :
  let r := snipe [Scenario.rate_limited_500] 2650 Scenario.world0 (JString "abc") "1" 0 in
  requests (effects r) = [(JString "900", JString "abc")]
  ∧ completion r = Returned
  ∧ sameGuildIntervals (client (world r)) !! "1" = None.
Proof. vm_compute. repeat split; reflexivity. Qed.

(** ** Frames *)

Section Frames.

Variables (cfg : config.t) (h : Arrays) (now : Z).

Lemma sequence_onDispatch ev c :
  sequence (after (onDispatch cfg h now ev c)) = sequence c.
Proof.
  destruct ev as [sid usr gs|g|k|[g|]| |t]; try done.
  - destruct (guilds c) as [m|] eqn:Hm.
    + rewrite (onDispatch_GUILD_UPDATE _ _ _ _ _ _ Hm). cbn zeta.
      destruct (m !! Guild.id g); [|done].
      destruct (strict_eq _ _); [done|].
      destruct (ignored _ _ _); [done|].
      destruct (cooled_down _ _); done.
    + unfold onDispatch. run. by rewrite Hm.
  - destruct (guilds c) as [m|] eqn:Hm.
    + rewrite (onDispatch_GUILD_DELETE _ _ _ _ _ _ Hm).
      destruct (get_guild m k); [|done]. cbn zeta.
      destruct (ignored _ _ _); [done|].
      destruct (cooled_down _ _); done.
    + unfold onDispatch. run. by rewrite Hm.
  - unfold onDispatch. destruct (truthy _); [|done]. run. by destruct (guilds c).
  - unfold onDispatch. run. cbn. by destruct (guilds c).
Qed.

Lemma sequence_resume c : sequence (after (resume c)) = sequence c.
Proof. unfold resume, broadcast. run. cbn. by destruct (ws c) as [[]|]. Qed.

Lemma sequence_identify c : sequence (after (identify c)) = Some 0.
Proof. unfold identify, broadcast. run. cbn. by destruct (ws c) as [[]|]. Qed.

Lemma sequence_reconnect c : sequence (after (reconnect now c)) = sequence c.
Proof.
  unfold reconnect, destroy, close_socket, createSocket, connected_or_connecting.
  run. destruct (ws c) as [rs|]; [|done]. by cbn.
Qed.

Lemma sequence_hello d c :
  sequence (after ((clearHelloTimeout;; onHello d) c)) = sequence c.
Proof.
  unfold clearHelloTimeout, onHello, startHeartbeat, stopHeartbeat. run. cbn.
  destruct (helloTimeout c); cbn; by destruct (heartbeatHandler c).
Qed.

(** C9, as the code has it.  A frame that carries a sequence number other
    than [0] has it stored before the switch on the opcode runs, whatever
    the opcode: the handling runs on the client that holds the carried
    value.  It is still the stored value when [onMessage] returns, except
    after an [INVALID_SESSION] that is not resumable, where [identify]
    resets it to [0]. *)
Theorem sequence_recorded_before_handling c p n :
  s p = Some n →
  n ≠ 0 →
  onMessage cfg h now (Some p) c
  = try_catch (handle_opcode cfg h now p) (log FailedToHandleMessage)
      (set_sequence (Some n) c)
  ∧ sequence (after (onMessage cfg h now (Some p) c))
    = match body p with
      | InvalidSession false => Some 0
      | _ => Some n
      end.
Proof.
  intros Hs Hn.
  assert (onMessage cfg h now (Some p) c
          = try_catch (handle_opcode cfg h now p) (log FailedToHandleMessage)
              (set_sequence (Some n) c)) as Heq.
  { unfold onMessage, record_sequence, truthy_num. rewrite Hs.
    rewrite (proj2 (Z.eqb_neq n 0) Hn). cbn [negb]. run.
    by destruct (handle_opcode cfg h now p (set_sequence (Some n) c)) as [? ? [[]|]]. }
  split; [exact Heq|]. rewrite Heq. clear Heq.
  assert (∀ (m : Act unit) c', sequence (after (try_catch m (log FailedToHandleMessage) c'))
                               = sequence (after (m c'))) as Hcatch.
  { intros m c'. unfold try_catch, log, emit. by destruct (value (m c')). }
  rewrite Hcatch. unfold handle_opcode.
  destruct (body p) as [d| |[|]| |ev|k].
  - by rewrite sequence_hello.
  - done.
  - by rewrite sequence_resume.
  - by rewrite sequence_identify.
  - by rewrite sequence_reconnect.
  - by rewrite sequence_onDispatch.
  - done.
Qed.

End Frames.

(** A resumable [INVALID_SESSION] that carries [s = 42], on an open socket:
    the [RESUME] frame sent by the handler carries 42. *)
Lemma sequence_recorded_before_handling_witness :
  let c := set_ws (Some WS_OPEN) (set_sequence (Some 7) Scenario.client0) in
  let p := {| s := Some 42; body := InvalidSession true |} in
  let r := onMessage Scenario.config0 Scenario.arrays0 3000 (Some p) c in
  emitted r = [Log AttemptingToResume; Send (Resume "token" (Some "session") (Some 42))]
  ∧ sequence (after r) = Some 42.
Proof.
  cbn zeta.
  destruct (sequence_recorded_before_handling Scenario.config0 Scenario.arrays0 3000
              (set_ws (Some WS_OPEN) (set_sequence (Some 7) Scenario.client0))
              {| s := Some 42; body := InvalidSession true |} 42 eq_refl)
    as [Hrun Hseq]; [lia|].
  split; [|exact Hseq]. rewrite Hrun. vm_compute. reflexivity.
Defined.

(** C9, as stated, fails for the sequence number [0]: a dispatch frame that
    carries [s = 0] leaves the stored sequence number at 41. *)
Lemma zero_sequence_not_recorded :
  let c := set_sequence (Some 41) Scenario.client0 in
  let p := {| s := Some 0; body := DispatchEvent (OTHER_EVENT "PRESENCE_UPDATE") |} in
  let r := onMessage Scenario.config0 Scenario.arrays0 3000 (Some p) c in
  s p = Some 0
  ∧ sequence (after r) = Some 41
  ∧ sequence (after r) ≠ Some 0.
Proof.
  cbn zeta. split; [reflexivity|]. split; [vm_compute; reflexivity|].
  vm_compute. discriminate.
Qed.


(** ** End to end *)

(** The snapshot of the scenario leaves exactly the resource with an alias
    in the watch set.  The update that takes its alias away starts a race for
    ["abc"]: one request to the target ["900"], which applies the alias; the
    target moves to the rotated-back queue, the sink is told, and the
    resource is on cool-down for a minute from the time the race ended. *)
Example snapshot_update_race :
  let r := dispatch [Scenario.applied "abc"] 2000 2150 Scenario.world0
             (GUILD_UPDATE (Guild.mk "1" "alpha" JNull)) in
  guilds Scenario.client0 = Some {[ "1" := Scenario.alpha ]}
  ∧ requests (effects r) = [(JString "900", JString "abc")]
  ∧ notified (effects r) = [("https://hooks.example/1", "Sniped https://discord.gg/abc")]
  ∧ arr (heap (world r)) (config.guilds (cfg (world r))) = []
  ∧ arr (heap (world r)) (rotatedGuilds (client (world r))) = [JString "900"]
  ∧ sameGuildIntervals (client (world r)) !! "1" = Some 62150
  ∧ completion r = Returned.
Proof. vm_compute. repeat split; reflexivity. Qed.


(** * Further properties *)

(** ** Watch set *)

Section WatchSetMore.

Variables (cfg : config.t) (h : Arrays) (now : Z).

(** The snapshot of [READY] holds, for each id, the last resource of the
    payload that has this id and an alias; ids without such a resource are
    absent. *)
Theorem snapshot_lookup gs k :
  snapshot gs !! k
  = last (filter (λ g, truthy (Guild.vanity_url_code g) = true ∧ Guild.id g = k) gs).
Proof.
  unfold snapshot.
  assert (∀ m0 : gmap string Guild.t,
             foldl (λ m g, if truthy (Guild.vanity_url_code g)
                           then <[Guild.id g := g]> m else m) m0 gs !! k
             = match last (filter (λ g, truthy (Guild.vanity_url_code g) = true
                                        ∧ Guild.id g = k) gs) with
               | Some g => Some g
               | None => m0 !! k
               end) as Hgen.
  { induction gs as [|a gs IH]; intros m0; [done|].
    cbn [foldl]. rewrite IH, filter_cons.
    destruct (truthy (Guild.vanity_url_code a)) eqn:Ha.
    - case_decide as Hk.
      + rewrite last_cons. destruct (last (filter _ gs)); [done|].
        destruct Hk as [_ <-]. by rewrite lookup_insert_eq.
      + destruct (last (filter _ gs)); [done|].
        rewrite lookup_insert_ne; [done|]. intros Heq. apply Hk. by split.
    - case_decide as Hk; [by destruct Hk|]. done. }
  rewrite Hgen. rewrite lookup_empty. by destruct (last _).
Qed.

Lemma snapshot_keyed gs k g : snapshot gs !! k = Some g → Guild.id g = k.
Proof.
  unfold snapshot.
  assert (∀ m0 : gmap string Guild.t,
             (∀ i x, m0 !! i = Some x → Guild.id x = i) →
             foldl (λ m g, if truthy (Guild.vanity_url_code g)
                           then <[Guild.id g := g]> m else m) m0 gs !! k = Some g →
             Guild.id g = k) as Hgen.
  { induction gs as [|a gs IH]; intros m0 Hm0; cbn.
    - apply Hm0.
    - apply IH. destruct (truthy (Guild.vanity_url_code a)); [|done].
      intros i x. rewrite lookup_insert. case_decide; [|apply Hm0].
      by intros [= <-]. }
  apply Hgen. intros i x. by rewrite lookup_empty.
Qed.

Lemma tracked_set_guilds m c k : tracked (set_guilds (Some m) c) k = m !! k.
Proof. done. Qed.

(** A dispatch keeps every watched resource stored under its own id, and
    [READY] makes it so from any state. *)
Lemma keyed_onDispatch ev c :
  keyed c ∨ (∃ sid usr gs, ev = READY sid usr gs) →
  keyed (after (onDispatch cfg h now ev c)).
Proof.
  intros Hc.
  destruct ev as [sid usr gs|g|k|[g|]| |t].
  - intros k g. unfold onDispatch. run. cbn. apply snapshot_keyed.
  - destruct Hc as [Hc|(? & ? & ? & [=])].
    destruct (guilds c) as [m|] eqn:Hm.
    + rewrite (onDispatch_GUILD_UPDATE _ _ _ _ _ _ Hm). cbn zeta.
      assert (keyed (set_guilds (Some (<[Guild.id g := g]> m)) c)) as H1.
      { intros k x. rewrite tracked_set_guilds, lookup_insert.
        case_decide; [by intros [= <-]|]. intros Hx. apply Hc.
        unfold tracked. by rewrite Hm. }
      destruct (m !! Guild.id g); [|done].
      destruct (strict_eq _ _); [done|].
      destruct (ignored _ _ _); [done|].
      destruct (cooled_down _ _); done.
    + unfold onDispatch. run. by rewrite Hm.
  - destruct Hc as [Hc|(? & ? & ? & [=])].
    destruct (guilds c) as [m|] eqn:Hm.
    + rewrite (onDispatch_GUILD_DELETE _ _ _ _ _ _ Hm).
      destruct (get_guild m k) as [guild|]; [|done]. cbn zeta.
      assert (keyed (set_guilds (Some (delete (Guild.id guild) m)) c)) as H1.
      { intros k' x. rewrite tracked_set_guilds, lookup_delete.
        case_decide; [done|]. intros Hx. apply Hc.
        unfold tracked. by rewrite Hm. }
      destruct (ignored _ _ _); [done|].
      destruct (cooled_down _ _); done.
    + unfold onDispatch. run. by rewrite Hm.
  - destruct Hc as [Hc|(? & ? & ? & [=])].
    unfold onDispatch. destruct (truthy (Guild.vanity_url_code g)); [|done].
    run. destruct (guilds c) as [m|] eqn:Hm; [|done]. cbn.
    intros k x. rewrite tracked_set_guilds, lookup_insert.
    case_decide; [by intros [= <-]|]. intros Hx. apply Hc.
    unfold tracked. by rewrite Hm.
  - by destruct Hc as [Hc|(? & ? & ? & [=])].
  - destruct Hc as [Hc|(? & ? & ? & [=])].
    unfold onDispatch. run. cbn. destruct (guilds c) as [m|] eqn:Hm; cbn.
    + intros k x. unfold tracked. cbn. rewrite Hm. intros Hx. apply Hc.
      unfold tracked. by rewrite Hm.
    + intros k x. unfold tracked. cbn. by rewrite Hm.
  - by destruct Hc as [Hc|(? & ? & ? & [=])].
Qed.

(** The races a change event starts, by the two gates. *)
Lemma races_of_change c ev id name vacated :
  ChangeEvent c ev id name vacated →
  races (emitted (onDispatch cfg h now ev c))
  = if ignored cfg h id || negb (cooled_down (sameGuildIntervals c !! id) now)
    then [] else [(vacated, id)].
Proof.
  intros [g p (m & Hm & Hp)%tracked_Some Hne | k p (m & Hm & Hp)%tracked_Some].
  - rewrite (onDispatch_GUILD_UPDATE _ _ _ _ _ _ Hm). cbn zeta. rewrite Hp.
    unfold strict_eq. rewrite bool_decide_eq_false_2 by done.
    destruct (ignored _ _ _); [done|]. by destruct (cooled_down _ _).
  - rewrite (onDispatch_GUILD_DELETE _ _ _ _ _ _ Hm). cbn [get_guild mbind option_bind].
    rewrite Hp. cbn zeta.
    destruct (ignored _ _ _); [done|]. by destruct (cooled_down _ _).
Qed.

(** A dispatch starts at most one race, and only a change event of a watched
    resource starts one: the race is for the alias that was stored.
    [READY], [GUILD_CREATE], [RESUMED], the first sight of a resource and an
    update that keeps the alias never start a race. *)
Theorem races_only_for_changes ev c :
  races (emitted (onDispatch cfg h now ev c)) = []
  ∨ ∃ id name vacated,
      ChangeEvent c ev id name vacated
      ∧ races (emitted (onDispatch cfg h now ev c)) = [(vacated, id)].
Proof.
  destruct ev as [sid usr gs|g|k|[g|]| |t].
  - by left.
  - destruct (guilds c) as [m|] eqn:Hm.
    + destruct (m !! Guild.id g) as [p|] eqn:Hp.
      * destruct (decide (Guild.vanity_url_code p = Guild.vanity_url_code g)) as [He|Hne].
        -- left. rewrite (onDispatch_GUILD_UPDATE _ _ _ _ _ _ Hm). cbn zeta. rewrite Hp.
           unfold strict_eq. by rewrite bool_decide_eq_true_2.
        -- assert (ChangeEvent c (GUILD_UPDATE g) (Guild.id g) (Guild.name g)
                     (Guild.vanity_url_code p)) as Hev.
           { apply change_update; [|done]. apply tracked_Some. eauto. }
           rewrite (races_of_change _ _ _ _ _ Hev).
           destruct (_ || _); [by left|]. right. eauto.
      * left. rewrite (onDispatch_GUILD_UPDATE _ _ _ _ _ _ Hm). cbn zeta. by rewrite Hp.
    + left. unfold onDispatch. run. by rewrite Hm.
  - destruct (guilds c) as [m|] eqn:Hm.
    + destruct k as [k|].
      * destruct (m !! k) as [p|] eqn:Hp.
        -- assert (ChangeEvent c (GUILD_DELETE (Some k)) (Guild.id p) (Guild.name p)
                     (Guild.vanity_url_code p)) as Hev.
           { apply change_delete. apply tracked_Some. eauto. }
           rewrite (races_of_change _ _ _ _ _ Hev).
           destruct (_ || _); [by left|]. right. eauto.
        -- left. rewrite (onDispatch_GUILD_DELETE _ _ _ _ _ _ Hm).
           cbn [get_guild mbind option_bind]. by rewrite Hp.
      * left. by rewrite (onDispatch_GUILD_DELETE _ _ _ _ _ _ Hm).
    + left. unfold onDispatch. run. by rewrite Hm.
  - left. unfold onDispatch. destruct (truthy _); [|done]. run. by destruct (guilds c).
  - by left.
  - left. unfold onDispatch. run. cbn. by destruct (guilds c).
  - by left.
Qed.

(** The removal of a watched resource takes it out of the watch set
    whatever the ignore-list and the cool-down say, and leaves the other
    resources as they are. *)
Theorem delete_unwatches c k p :
  keyed c →
  tracked c k = Some p →
  let r := onDispatch cfg h now (GUILD_DELETE (Some k)) c in
  tracked (after r) k = None
  ∧ ∀ k', k' ≠ k → tracked (after r) k' = tracked c k'.
Proof.
  intros Hkey Hp. cbn zeta. pose proof (Hkey _ _ Hp) as Hid.
  apply tracked_Some in Hp as (m & Hm & Hp).
  rewrite (onDispatch_GUILD_DELETE _ _ _ _ _ _ Hm). cbn [get_guild mbind option_bind].
  rewrite Hp. cbn zeta. rewrite Hid.
  assert (∀ k', tracked c k' = m !! k') as Htr.
  { intros k'. unfold tracked. by rewrite Hm. }
  destruct (ignored _ _ _); [|destruct (cooled_down _ _)];
    (split; [apply lookup_delete_eq|]); intros k' Hk';
    rewrite Htr; unfold tracked; cbn; by rewrite lookup_delete_ne.
Qed.

(** What a dispatch does to the watch set depends on the event and on the
    watch set alone: not on the configuration, the claim targets, the clock,
    the cool-downs or the session. *)
Theorem watch_set_independent cfg' h' now' ev c c' :
  guilds c = guilds c' →
  guilds (after (onDispatch cfg h now ev c))
  = guilds (after (onDispatch cfg' h' now' ev c')).
Proof.
  intros Hg.
  destruct ev as [sid usr gs|g|k|[g|]| |t]; try done.
  - destruct (guilds c') as [m|] eqn:Hm'.
    + rewrite (onDispatch_GUILD_UPDATE _ _ _ _ _ _ Hg), (onDispatch_GUILD_UPDATE _ _ _ _ _ _ Hm').
      cbn zeta. destruct (m !! Guild.id g); [|done].
      destruct (strict_eq _ _); [done|].
      destruct (ignored cfg _ _), (ignored cfg' _ _); try done;
        repeat (match goal with |- context [cooled_down ?o ?t] => destruct (cooled_down o t) end);
        done.
    + unfold onDispatch. run. rewrite Hg, Hm'. congruence.
  - destruct (guilds c') as [m|] eqn:Hm'.
    + rewrite (onDispatch_GUILD_DELETE _ _ _ _ _ _ Hg), (onDispatch_GUILD_DELETE _ _ _ _ _ _ Hm').
      destruct (get_guild m k); [|cbn; congruence]. cbn zeta.
      destruct (ignored cfg _ _), (ignored cfg' _ _); try done;
        repeat (match goal with |- context [cooled_down ?o ?t] => destruct (cooled_down o t) end);
        done.
    + unfold onDispatch. run. rewrite Hg, Hm'. congruence.
  - unfold onDispatch. destruct (truthy _); [|done]. run. rewrite Hg.
    destruct (guilds c') eqn:Hm'; cbn; congruence.
  - unfold onDispatch. run. cbn. rewrite Hg.
    destruct (guilds c') eqn:Hm'; cbn; congruence.
Qed.

End WatchSetMore.

(** The watched resource ["1"] of the scenario is removed. *)
Lemma delete_unwatches_witness :
  let r := onDispatch Scenario.config_ignoring Scenario.arrays_hosting 2000
             (GUILD_DELETE (Some "1")) Scenario.client0 in
  tracked Scenario.client0 "1" = Some Scenario.alpha
  ∧ tracked (after r) "1" = None.
Proof.
  cbn zeta. split; [vm_compute; reflexivity|].
  apply (delete_unwatches Scenario.config_ignoring Scenario.arrays_hosting 2000
           Scenario.client0 "1" Scenario.alpha).
  - apply (keyed_onDispatch Scenario.config0 Scenario.arrays0 1000
             (READY (Some "session") {| username := "me" |} [Scenario.alpha; Scenario.beta])).
    right. eauto.
  - vm_compute; reflexivity.
Defined.

(** Two handlers that differ in configuration and clock leave the same
    watch set. *)
Lemma watch_set_independent_witness :
  let g := Guild.mk "1" "alpha" (JString "xyz") in
  guilds (after (onDispatch Scenario.config0 Scenario.arrays0 2000 (GUILD_UPDATE g)
                   Scenario.client0))
  = guilds (after (onDispatch Scenario.config_ignoring Scenario.arrays_hosting 9000
                     (GUILD_UPDATE g) (set_sequence (Some 5) Scenario.client0))).
Proof.
  cbn zeta.
  apply (watch_set_independent Scenario.config0 Scenario.arrays0 2000
           Scenario.config_ignoring Scenario.arrays_hosting 9000).
  reflexivity.
Defined.

(** ** Claim race *)

Section ClaimRaceMore.

Variables (now : Z) (vanity : JSValue) (id : string) (tries : Z).

Lemma snipe_guarded replies w :
  no_targets w = true →
  snipe replies now w vanity id tries
  = say [Log (AttemptingToSnipe vanity); Log NoMoreGuilds] (done_with w (Exited 0)).
Proof. intros Hw. destruct replies; cbn [snipe]; by rewrite Hw. Qed.

Lemma client_rotate w : client (rotate w) = client w.
Proof. unfold rotate. by destruct (must_rotate w). Qed.

Lemma heap_rotate w : heap (rotate w) = heap w.
Proof. unfold rotate. by destruct (must_rotate w). Qed.

Lemma timeout_rotate w :
  config.sameGuildSnipeTimeout (cfg (rotate w)) = config.sameGuildSnipeTimeout (cfg w).
Proof. unfold rotate. by destruct (must_rotate w). Qed.


(** The worlds a race can end in. *)
Lemma snipe_world replies w :
  no_targets w = false →
  let r := snipe replies now w vanity id tries in
  world r = rotate w
  ∨ world r = consume_target (rotate w)
  ∨ world r = set_cool_down now id (consume_target (rotate w))
  ∨ world r = set_cool_down now id (rotate w).
Proof.
  intros Hw. cbn zeta.
  destruct (snipe_outcome now vanity id tries replies w Hw) as [_ Hend]. cbn zeta in Hend.
  destruct (deciding _ replies) as [data|]; [|by destruct Hend as (-> & _); left].
  destruct (rate_limited data); [by destruct Hend as (-> & _); left|].
  destruct (strict_eq _ _).
  - destruct Hend as [_ Hend]. destruct (config.exitOnSnipe _); destruct Hend as [-> _]; auto.
  - destruct Hend as (-> & _). auto.
Qed.

(** A race writes nothing of the client but the cool-down entry of the
    resource it was started for: the watch set, the session and the other
    cool-downs are as before. *)
Theorem race_touches_one_cool_down replies w :
  let r := snipe replies now w vanity id tries in
  client (world r) = client w
  ∨ client (world r)
    = set_sameGuildIntervals
        (<[id := now + config.sameGuildSnipeTimeout (cfg w)]> (sameGuildIntervals (client w)))
        (client w).
Proof.
  cbn zeta. destruct (no_targets w) eqn:Hw.
  - rewrite (snipe_guarded _ _ Hw). by left.
  - destruct (snipe_world replies w Hw) as [-> | [-> | [-> | ->]]].
    + left. apply client_rotate.
    + left. by rewrite client_consume_target, client_rotate.
    + right. unfold set_cool_down. cbn.
      by rewrite client_consume_target, cfg_consume_target, client_rotate, timeout_rotate.
    + right. unfold set_cool_down. cbn. by rewrite client_rotate, timeout_rotate.
Qed.





Lemma requests_app es es' : requests (es ++ es') = requests es ++ requests es'.
Proof.
  induction es as [|e es IH]; [done|]. destruct e; cbn; by rewrite ?IH.
Qed.

Lemma requests_prefix w target rest :
  requests (([Log (AttemptingToSnipe vanity)]
               ++ (if must_rotate w then [Log RotatingGuilds] else [])
               ++ [Patch target vanity]) ++ rest)
  = (target, vanity) :: requests rest.
Proof. by destruct (must_rotate w). Qed.

(** The requests of one race all go to one target, the head of the active
    pool once refilled, and carry the candidate; there is none when the
    guard ends the race, one at least otherwise, and never more than one
    above the number of replies. *)
Theorem race_requests_one_target replies w :
  let r := snipe replies now w vanity id tries in
  let target := hd JUndefined (arr (heap (rotate w)) (config.guilds (cfg (rotate w)))) in
  ∃ n : nat,
    requests (effects r) = replicate n (target, vanity)
    ∧ (n ≤ S (length replies))%nat
    ∧ (n = 0%nat ↔ no_targets w = true).
Proof.
  cbn zeta. destruct (no_targets w) eqn:Hw.
  - exists 0%nat. rewrite (snipe_guarded _ _ Hw). cbn. split; [done|]. split; [lia|done].
  - revert w Hw. induction replies as [|data later IH]; intros w Hw.
    + exists 1%nat. cbn [snipe]. rewrite Hw, effects_say, requests_prefix.
      cbn. split; [done|]. split; [lia|]. split; [lia|done].
    + cbn [snipe]. rewrite Hw, effects_say, requests_prefix.
      destruct (rate_limited data).
      * rewrite effects_say. cbn [app requests].
        destruct (config.retries (cfg (rotate w)) <? tries).
        -- destruct (IH (rotate w) (rotate_keeps_targets w Hw)) as (n & Hn & Hle & Hz).
           rewrite rotate_idem in Hn.
           exists (S n). rewrite Hn. cbn. split; [done|]. split; [lia|]. split; [lia|done].
        -- exists 1%nat. cbn. split; [done|]. split; [lia|]. split; [lia|done].
      * exists 1%nat.
        destruct (strict_eq _ _); [destruct (config.exitOnSnipe _)|];
          cbn; (split; [done|]); (split; [lia|]); (split; [lia|done]).
Qed.



End ClaimRaceMore.


(** ** Frames and session *)

(** Unfolds the session methods down to the monadic plumbing. *)
Ltac session :=
  unfold onOpen, onHello, reconnect, heartbeat, resume, identify, destroy, createSocket,
    startHeartbeat, clearHelloTimeout, stopHeartbeat, close_socket, broadcast;
  run.

(** Decides the tests on constructors that [cbn] leaves. *)
Ltac decided :=
  repeat first [rewrite bool_decide_eq_false_2 by discriminate
               | rewrite bool_decide_eq_true_2 by reflexivity];
  cbn.

(** Closes [dispatch_shaped] on an explicit result. *)
Ltac shaped :=
  unfold dispatch_shaped; cbn;
  split; [repeat split; reflexivity|];
  split; [first [left; reflexivity | right; reflexivity]|];
  split;
  [first [left; reflexivity
         | right; split; [reflexivity | first [solve [left; eauto] | right; reflexivity]]]|];
  repeat (constructor;
          [first [eexists; left; split; [reflexivity | discriminate]
                 | exists FailedToHandleMessage; right; eauto]|]);
  try constructor.

Section SessionMore.

Variables (cfg : config.t) (h : Arrays) (now : Z).

Lemma onDispatch_shape ev c : dispatch_shaped ev c (onDispatch cfg h now ev c).
Proof.
  destruct ev as [sid usr gs|g|k|[g|]| |t].
  - unfold onDispatch. run. shaped.
  - destruct (guilds c) as [m|] eqn:Hm.
    + rewrite (onDispatch_GUILD_UPDATE _ _ _ _ _ _ Hm). cbn zeta.
      destruct (m !! Guild.id g); [destruct (strict_eq _ _); [|destruct (ignored _ _ _);
        [|destruct (cooled_down _ _)]]|]; shaped.
    + unfold onDispatch. run. rewrite Hm. shaped.
  - destruct (guilds c) as [m|] eqn:Hm.
    + rewrite (onDispatch_GUILD_DELETE _ _ _ _ _ _ Hm).
      destruct (get_guild m k); [cbn zeta; destruct (ignored _ _ _);
        [|destruct (cooled_down _ _)]|]; shaped.
    + unfold onDispatch. run. rewrite Hm. shaped.
  - unfold onDispatch. destruct (truthy (Guild.vanity_url_code g)); [|shaped].
    run. destruct (guilds c) as [m|]; shaped.
  - shaped.
  - unfold onDispatch. run. cbn. destruct (guilds c) as [m|]; shaped.
  - shaped.
Qed.


Lemma record_sequence_run p c :
  record_sequence p c
  = mkRes (if truthy_num (s p) then set_sequence (s p) c else c) [] (Some tt).
Proof. unfold record_sequence. by destruct (truthy_num (s p)). Qed.

(** [onMessage] on a frame that parses: the switch runs after the sequence
    number is recorded, and a throw becomes a log line. *)
Lemma onMessage_run p c :
  let c1 := if truthy_num (s p) then set_sequence (s p) c else c in
  let r := handle_opcode cfg h now p c1 in
  onMessage cfg h now (Some p) c
  = mkRes (after r)
      (emitted r ++ match value r with Some _ => [] | None => [Log FailedToHandleMessage] end)
      (Some tt).
Proof.
  cbn zeta. unfold onMessage, try_catch. run. rewrite record_sequence_run. cbn.
  destruct (handle_opcode cfg h now p _) as [a es [[]|]]; cbn; [|done].
  by rewrite app_nil_r.
Qed.





Lemma keyed_guilds c c' : guilds c' = guilds c → keyed c → keyed c'.
Proof. intros Hg Hk k g. unfold tracked. rewrite Hg. apply Hk. Qed.

Lemma heartbeats_app n hs hs' :
  heartbeats n (hs ++ hs') = heartbeats (heartbeats n hs) hs'.
Proof.
  revert n. induction hs as [|x hs IH]; intros n; [done|].
  destruct x as [[]| |]; cbn; apply IH.
Qed.

Lemma heartbeats_quiet n es :
  Forall (λ e, ∃ l, e = Log l ∧ l ≠ FailedToHandleMessage ∨ ∃ v i, e = Snipe v i) es →
  heartbeats n (map Did es) = n.
Proof.
  induction 1 as [|e es (l & [[-> _]|(v & i & ->)]) _ IH]; [done| |]; cbn; exact IH.
Qed.

(** The switch of [onMessage], for the three invariants of a session. *)
Lemma handle_opcode_shape p c :
  let r := handle_opcode cfg h now p c in
  heartbeats (if armed (heartbeatHandler c) then 1 else 0)%nat (map Did (emitted r))
  = (if armed (heartbeatHandler (after r)) then 1 else 0)%nat
  ∧ (keyed c → keyed (after r))
  ∧ (attempts c = None → logs_in (Message now (Some p)) = false →
     attempts (after r) = None).
Proof.
  cbn zeta. unfold handle_opcode. cbn [logs_in]. destruct (body p) as [d| |[|]| |ev|k].
  - session. cbn. destruct (helloTimeout c); cbn; destruct (heartbeatHandler c); cbn;
      (split; [done|]); split; (apply keyed_guilds; done) || done.
  - cbn. split; [done|]. split; [apply keyed_guilds|]; done.
  - session. cbn. destruct (ws c) as [[]|]; cbn; destruct (heartbeatHandler c); cbn;
      (split; [done|]); split; (apply keyed_guilds; done) || done.
  - session. cbn. destruct (ws c) as [[]|]; cbn; destruct (heartbeatHandler c); cbn;
      (split; [done|]); split; (apply keyed_guilds; done) || done.
  - session. destruct (ws c) as [rs|]; cbn.
    + destruct (connected_or_connecting _); cbn; [|destruct (bool_decide _); cbn];
      destruct (heartbeatHandler c); cbn;
        (split; [done|]); (split; [apply keyed_guilds; done|]); by intros ->.
    + destruct (heartbeatHandler c); cbn; (split; [done|]);
        split; (apply keyed_guilds; done) || done.
  - destruct (onDispatch_shape ev c) as ((_ & Hh & _) & _ & Hat & Hes).
    rewrite Hh, (heartbeats_quiet _ _ Hes).
    split; [done|]. split.
    + intros Hk. apply keyed_onDispatch. by left.
    + intros Hnone Hlog. destruct Hat as [->|[_ Hlogin]]; [done|].
      destruct Hlogin as [(? & ? & ? & ->)| ->]; done.
  - cbn. split; [done|]. split; [apply keyed_guilds|]; done.
Qed.

(** After a frame that carries a sequence number other than [0] and whose
    handling leaves the socket alone, the next heartbeat on the open socket
    carries that number. *)
Theorem heartbeat_after_frame c p n :
  s p = Some n →
  n ≠ 0 →
  needs_socket (body p) = false →
  ws c = Some WS_OPEN →
  state c ≠ Some CONNECTING →
  emitted (heartbeat (after (onMessage cfg h now (Some p) c)))
  = [Send (Heartbeat n); Log Ping].
Proof.
  intros Hs Hn Hb Hws Hst. rewrite onMessage_run. cbn [after].
  unfold truthy_num. rewrite Hs, (proj2 (Z.eqb_neq n 0) Hn). cbn [negb].
  set (c1 := set_sequence (Some n) c).
  assert (ws (after (handle_opcode cfg h now p c1)) = Some WS_OPEN
          ∧ state (after (handle_opcode cfg h now p c1)) ≠ Some CONNECTING
          ∧ sequence (after (handle_opcode cfg h now p c1)) = Some n) as (Hws' & Hst' & Hseq).
  { unfold handle_opcode. destruct (body p) as [d| |[|]| |ev|k]; try done.
    - rewrite sequence_hello. session. cbn.
      by destruct (helloTimeout c); cbn; destruct (heartbeatHandler c).
    - destruct (onDispatch_shape ev c1) as ((Hw & _) & Hst1 & _).
      rewrite Hw, sequence_onDispatch. split; [done|]. split; [|done].
      destruct Hst1 as [->| ->]; done. }
  set (c2 := after (handle_opcode cfg h now p c1)) in *. clearbody c2.
  unfold heartbeat, broadcast. run. rewrite bool_decide_eq_false_2 by done.
  rewrite Hws', Hseq. done.
Qed.

(** [READY] and, once the watch set exists, [RESUMED] set the attempt counter
    to 0; [RECONNECT] is the only other frame that can change it. *)
Theorem attempts_after_frame c p :
  let c' := after (onMessage cfg h now (Some p) c) in
  match body p with
  | DispatchEvent (READY _ _ _) => attempts c' = Some 0
  | DispatchEvent RESUMED =>
      match guilds c with
      | Some _ => attempts c' = Some 0
      | None => attempts c' = attempts c
      end
  | Reconnect => attempts c' = attempts c ∨ attempts c' = (λ n, n + 1) <$> attempts c
  | _ => attempts c' = attempts c
  end.
Proof.
  cbn zeta. rewrite onMessage_run. cbn [after].
  set (c1 := if truthy_num (s p) then set_sequence (s p) c else c).
  assert (attempts c1 = attempts c ∧ guilds c1 = guilds c) as [Ha Hg]
    by (unfold c1; by destruct (truthy_num (s p))).
  rewrite <- Ha, <- Hg. clearbody c1. clear Ha Hg.
  unfold handle_opcode. destruct (body p) as [d| |[|]| |ev|k].
  - session. cbn. by destruct (helloTimeout c1); cbn; destruct (heartbeatHandler c1).
  - done.
  - session. cbn. by destruct (ws c1) as [[]|].
  - session. cbn. by destruct (ws c1) as [[]|].
  - session. destruct (ws c1) as [rs|]; cbn; [|by left].
    destruct (connected_or_connecting _); cbn; auto.
  - destruct ev as [sid usr gs|g|k|[g|]| |t]; try done.
    + destruct (onDispatch_shape (GUILD_UPDATE g) c1) as (_ & _ & [?|[_ [(?&?&?&?)|?]]] & _);
        done.
    + destruct (onDispatch_shape (GUILD_DELETE k) c1) as (_ & _ & [?|[_ [(?&?&?&?)|?]]] & _);
        done.
    + destruct (onDispatch_shape (GUILD_CREATE (Some g)) c1)
        as (_ & _ & [?|[_ [(?&?&?&?)|?]]] & _); done.
    + unfold onDispatch. run. cbn. by destruct (guilds c1).
  - done.
Qed.

End SessionMore.

Section Life.

Variables (MAX_CONNECTION_RETRIES : Z) (strip : string → string) (EOL : string).
Variables (THRESHOLD : Z) (cfg : config.t) (h : Arrays).

Abbreviation handled := (handle MAX_CONNECTION_RETRIES strip EOL THRESHOLD cfg h).
Abbreviation lived := (live MAX_CONNECTION_RETRIES strip EOL THRESHOLD cfg h).

(** One event, for the three invariants of a session. *)
Lemma handle_shape ev S :
  let c := session_client S in
  let c' := session_client (handled ev S).1 in
  heartbeats (if armed (heartbeatHandler c) then 1 else 0)%nat (handled ev S).2
  = (if armed (heartbeatHandler c') then 1 else 0)%nat
  ∧ (keyed c → keyed c')
  ∧ (attempts c = None → logs_in ev = false → attempts c' = None).
Proof.
  cbn zeta. destruct S as [c T fs]. destruct ev as [now data|now|code reason| |now|rs];
    unfold handle, on_client, acted; cbn [session_client fst snd].
  - destruct data as [p|].
    + rewrite onMessage_run. cbn [after emitted].
      set (c1 := if truthy_num (s p) then set_sequence (s p) c else c).
      assert (heartbeatHandler c1 = heartbeatHandler c ∧ guilds c1 = guilds c
              ∧ attempts c1 = attempts c) as (Hh & Hg & Ha)
        by (unfold c1; by destruct (truthy_num (s p))).
      destruct (handle_opcode_shape cfg h now p c1) as (Hb & Hk & Hn). cbn zeta in Hb, Hk, Hn.
      rewrite map_app, heartbeats_app, <- Hh, Hb.
      split; [by destruct (value _)|]. split.
      * intros Hkey. apply Hk. by apply (keyed_guilds c).
      * intros Hnone. apply Hn. by rewrite Ha.
    + cbn. done.
  - session. cbn. destruct (canResume _ _ _); cbn; destruct (ws c) as [[]|]; cbn;
      destruct (heartbeatHandler c); cbn;
      (split; [done|]); split; (apply keyed_guilds; done) || done.
  - unfold onClose. cbn [session_client supply files].
    unfold stopHeartbeat. run. cbn [map].
    destruct (code =? 4004); [destruct (Tokens.invalidate _ _ _) as [T' fs']|];
      destruct (code =? 4444); cbn [fst snd session_client];
      try destruct (shouldAttempt _ _); cbn [fst snd session_client];
      try destruct (backoff_nonzero _); cbn;
      destruct (heartbeatHandler c); cbn;
      (split; [done|]); split; (apply keyed_guilds; done) || done.
  - session. cbn. destruct (bool_decide _); cbn; [|destruct (ws c) as [[]|]; cbn];
      destruct (heartbeatHandler c); cbn;
      (split; [done|]); split; (apply keyed_guilds; done) || done.
  - unfold delayed_dial. destruct (shouldAttempt _ c); cbn [fst snd].
    + session. cbn. destruct (connected_or_connecting c); cbn;
        [|destruct (bool_decide (ws c = Some WS_OPEN)); cbn; destruct (ws c); cbn];
        destruct (heartbeatHandler c); cbn;
        (split; [done|]); (split; [apply keyed_guilds; done|]); try done; by intros ->.
    + done.
  - destruct (ws c); cbn; (split; [done|]); split; (apply keyed_guilds; done) || done.
Qed.

Lemma live_cons ev evs S :
  lived (ev :: evs) S
  = ((lived evs (handled ev S).1).1, (handled ev S).2 ++ (lived evs (handled ev S).1).2).
Proof.
  cbn [live]. destruct (handled ev S) as [S1 hs1]. cbn.
  by destruct (live _ _ _ _ _ _ evs S1).
Qed.

(** Through any events a session holds one heartbeat timer when its handle
    is set and none otherwise: a timer is never started without the one
    before it being stopped. *)
Theorem one_heartbeat_timer evs S :
  heartbeats (if armed (heartbeatHandler (session_client S)) then 1 else 0)%nat
    (lived evs S).2
  = (if armed (heartbeatHandler (session_client (lived evs S).1)) then 1 else 0)%nat.
Proof.
  revert S. induction evs as [|ev evs IH]; intros S; [done|].
  rewrite live_cons. cbn [fst snd]. rewrite heartbeats_app.
  destruct (handle_shape ev S) as (Hb & _). cbn zeta in Hb. rewrite Hb. apply IH.
Qed.

(** Through any events of a session every watched resource stays stored
    under its own id. *)
Theorem keyed_for_life evs S :
  keyed (session_client S) → keyed (session_client (lived evs S).1).
Proof.
  revert S. induction evs as [|ev evs IH]; intros S HS; [done|].
  rewrite live_cons. cbn [fst]. apply IH.
  destruct (handle_shape ev S) as (_ & Hk & _). by apply Hk.
Qed.

(** The dials a close sets up. *)
Lemma onClose_dials code reason S :
  dials (onClose MAX_CONNECTION_RETRIES strip EOL code reason S).2
  = if (code =? 4444)
       || bool_decide (attempts (session_client S) = Some MAX_CONNECTION_RETRIES)
    then [] else [(λ n, n * 1000) <$> attempts (session_client S)].
Proof.
  destruct S as [c T fs]. unfold onClose. cbn [session_client supply files].
  unfold stopHeartbeat, shouldAttempt, connected_or_connecting, backoff_nonzero, backoff.
  run. cbn [map state attempts set_state set_heartbeatHandler].
  rewrite !bool_decide_eq_false_2 by done. cbn [orb].
  destruct (code =? 4004); [destruct (Tokens.invalidate _ _ _) as [T' fs']|];
    destruct (code =? 4444); cbn [orb fst snd]; try done;
    destruct (bool_decide (attempts c = Some MAX_CONNECTION_RETRIES));
    cbn [fst snd]; try done;
    by destruct (negb _).
Qed.

(** A close leaves the session disconnected with the heartbeat stopped and
    the attempt counter as it was.  It sets up a dial unless its code is the
    internal 4444 or the attempt counter equals the ceiling; the delay is
    the counter times 1000 ms.  The code 4004 of an invalid token makes no
    difference to the dial. *)
Theorem close_redials code reason S :
  let c := session_client S in
  let c' := session_client (onClose MAX_CONNECTION_RETRIES strip EOL code reason S).1 in
  state c' = Some DISCONNECTED
  ∧ heartbeatHandler c' = None
  ∧ attempts c' = attempts c
  ∧ dials (onClose MAX_CONNECTION_RETRIES strip EOL code reason S).2
    = if (code =? 4444) || bool_decide (attempts c = Some MAX_CONNECTION_RETRIES)
      then [] else [(λ n, n * 1000) <$> attempts c].
Proof.
  cbn zeta. split; [|split; [|split; [|apply onClose_dials]]];
    destruct S as [c T fs]; unfold onClose; cbn [session_client supply files];
    (destruct (code =? 4004); [destruct (Tokens.invalidate _ _ _) as [T' fs']|]);
    destruct (code =? 4444); cbn [fst snd session_client]; try done;
    by destruct (shouldAttempt _ _).
Qed.

(** Until a [READY] or a [RESUMED] arrives the attempt counter of a client
    is not a number: it is [undefined] when the constructor increments it.
    So no dial counts, and every close but 4444 sets up a dial, whatever the
    ceiling. *)
Theorem ceiling_waits_for_login evs S :
  attempts (session_client S) = None →
  Forall (λ ev, logs_in ev = false) evs →
  attempts (session_client (lived evs S).1) = None
  ∧ ∀ code reason,
      code ≠ 4444 →
      dials (handled (ClosedWith code reason) (lived evs S).1).2 = [None].
Proof.
  intros Hnone Hevs.
  assert (attempts (session_client (lived evs S).1) = None) as Hlast.
  { revert S Hnone. induction Hevs as [|ev evs Hev _ IH]; intros S Hnone; [done|].
    rewrite live_cons. cbn [fst]. apply IH.
    destruct (handle_shape ev S) as (_ & _ & Ha). by apply Ha. }
  split; [exact Hlast|]. intros code reason Hcode. cbn [handle].
  rewrite onClose_dials, Hlast. rewrite (proj2 (Z.eqb_neq code 4444) Hcode). done.
Qed.

End Life.

(** A client as the constructor leaves it is closed before any [READY]: the
    dial is set up although the ceiling is 0. *)
Lemma ceiling_waits_for_login_witness :
  let S := {| session_client := after (new 1000 "token" 1%nat);
              supply := Tokens.mk [] ["token"] [];
              files := {| Tokens.tokens_txt := Some "token";
                          Tokens.invalidUserTokens_txt := None |} |} in
  let evs := [ClosedWith 1006 ""; DialTick 1000; ClosedWith 1006 ""; DialTick 1001] in
  attempts (session_client S) = None
  ∧ dials (handle 0 (λ t, t) Tokens.LF_string 180000 Scenario.config0 Scenario.arrays0
             (ClosedWith 1006 "")
             (live 0 (λ t, t) Tokens.LF_string 180000 Scenario.config0 Scenario.arrays0 evs S).1).2
    = [None].
Proof.
  cbn zeta. split; [reflexivity|].
  apply (ceiling_waits_for_login 0 (λ t, t) Tokens.LF_string 180000
           Scenario.config0 Scenario.arrays0); [reflexivity| |lia].
  repeat constructor.
Defined.

(** The scenario's session, through a login, a heartbeat and a close. *)
Lemma keyed_for_life_witness :
  let S := {| session_client := after (new 1000 "token" 1%nat);
              supply := Tokens.mk [] ["token"] [];
              files := {| Tokens.tokens_txt := Some "token";
                          Tokens.invalidUserTokens_txt := None |} |} in
  let ready := {| s := Some 1;
                  body := DispatchEvent (READY (Some "session") {| username := "me" |}
                                           [Scenario.alpha; Scenario.beta]) |} in
  let evs := [ReadyStateIs WS_OPEN; Opened 1100; Message 1200 (Some ready);
              HeartbeatTick; ClosedWith 1006 ""] in
  keyed (session_client
           (live 5 (λ t, t) Tokens.LF_string 180000 Scenario.config0 Scenario.arrays0 evs S).1).
Proof.
  cbn zeta.
  apply (keyed_for_life 5 (λ t, t) Tokens.LF_string 180000 Scenario.config0 Scenario.arrays0).
  intros k g Hg. vm_compute in Hg. discriminate Hg.
Defined.

Section OpenMore.

Variables (THRESHOLD : Z) (cfg : config.t) (h : Arrays).

(** On an open socket [onOpen] sends one frame: [RESUME] with the stored
    session identifier and sequence number when [canResume] holds, and
    [IDENTIFY] otherwise, which clears the session identifier and sets the
    sequence number to 0.  Either way the time of the open is stored as the
    time of the last acknowledgment. *)
Theorem onOpen_resumes_iff now c :
  ws c = Some WS_OPEN →
  let r := onOpen THRESHOLD now c in
  lastHeartbeatAckTime (after r) = Some now
  ∧ if canResume THRESHOLD now c
    then emitted r = [Log SocketOpened; Log AttemptingToResume;
                      Send (Resume (token c) (sessionId c) (sequence c))]
         ∧ state (after r) = Some RESUMING
         ∧ sessionId (after r) = sessionId c
         ∧ sequence (after r) = sequence c
    else emitted r = [Log SocketOpened; Log SendingIdentify; Send (Identify (token c))]
         ∧ state (after r) = Some IDENTIFYING
         ∧ sessionId (after r) = None
         ∧ sequence (after r) = Some 0.
Proof.
  intros Hws. cbn zeta. session.
  assert (canResume THRESHOLD now (set_state (Some CONNECTED) c) = canResume THRESHOLD now c)
    as -> by done.
  destruct (canResume THRESHOLD now c); cbn; rewrite Hws; cbn; done.
Qed.


End OpenMore.

(** The scenario's session, acknowledged at 1100 and opened again at 2000,
    resumes with the session identifier and the sequence number it holds. *)
Lemma onOpen_resumes_iff_witness :
  let c := set_ws (Some WS_OPEN)
             (set_lastHeartbeatAckTime (Some 1100) (set_sequence (Some 9) Scenario.client0)) in
  emitted (onOpen 180000 2000 c)
  = [Log SocketOpened; Log AttemptingToResume;
     Send (Resume "token" (Some "session") (Some 9))].
Proof.
  cbn zeta.
  destruct (onOpen_resumes_iff 180000 2000
              (set_ws (Some WS_OPEN)
                 (set_lastHeartbeatAckTime (Some 1100)
                    (set_sequence (Some 9) Scenario.client0))) eq_refl) as [_ Hopen].
  exact (proj1 Hopen).
Defined.


(** A dispatch with [s = 42] on the open socket of the scenario; the
    heartbeat that follows carries 42. *)
Lemma heartbeat_after_frame_witness :
  let c := set_ws (Some WS_OPEN) Scenario.client0 in
  let p := {| s := Some 42; body := DispatchEvent (OTHER_EVENT "TYPING_START") |} in
  emitted (heartbeat (after (onMessage Scenario.config0 Scenario.arrays0 1500 (Some p) c)))
  = [Send (Heartbeat 42); Log Ping].
Proof.
  cbn zeta.
  apply (heartbeat_after_frame Scenario.config0 Scenario.arrays0 1500
           (set_ws (Some WS_OPEN) Scenario.client0)
           {| s := Some 42; body := DispatchEvent (OTHER_EVENT "TYPING_START") |} 42).
  - reflexivity.
  - lia.
  - reflexivity.
  - reflexivity.
  - discriminate.
Defined.

(** ** Token supply *)

Section TokensMore.

Import Tokens.

Lemma remove_first_absent x a : x ∉ a → remove_first x a = a.
Proof.
  induction a as [|y a IH]; [done|]. intros Hx. cbn.
  rewrite bool_decide_eq_false_2 by set_solver. rewrite IH; [done|]. set_solver.
Qed.

Lemma remove_first_split x l1 l2 :
  x ∉ l1 → remove_first x (l1 ++ x :: l2) = l1 ++ l2.
Proof.
  induction l1 as [|y l1 IH]; intros Hx; cbn.
  - by rewrite bool_decide_eq_true_2.
  - rewrite bool_decide_eq_false_2 by set_solver. rewrite IH; [done|]. set_solver.
Qed.

Lemma remove_first_subseteq x a : remove_first x a ⊆ a.
Proof.
  induction a as [|y a IH]; [done|]. cbn. case_bool_decide; set_solver.
Qed.

Lemma remove_first_NoDup x a : NoDup a → x ∉ remove_first x a.
Proof.
  induction 1 as [|y a Hy _ IH]; cbn; [set_solver|].
  case_bool_decide as He; [by subst|]. set_solver.
Qed.

Lemma remove_first_other x y a : y ≠ x → y ∈ remove_first x a ↔ y ∈ a.
Proof.
  intros Hy. induction a as [|z a IH]; [done|]. cbn.
  case_bool_decide as He; [subst; set_solver|]. set_solver.
Qed.

(** [invalidate(token)] takes the first occurrence of the token out of the
    supply and keeps the others in their order; when the supply does not
    hold the token it stays as it is.  Known or not, the token is appended
    to the invalid ones, and both files are rewritten from the lists. *)
Theorem invalidate_removes_first eol token T :
  let T' := (invalidate eol token T).1 in
  invalid T' = invalid T ++ [token]
  ∧ (token ∉ tokens T → tokens T' = tokens T)
  ∧ (∀ l1 l2, tokens T = l1 ++ token :: l2 → token ∉ l1 → tokens T' = l1 ++ l2)
  ∧ (NoDup (tokens T) → token ∉ tokens T')
  ∧ (invalidate eol token T).2 = persist eol T'.
Proof.
  cbn. split; [done|]. split; [apply remove_first_absent|]. split.
  - intros l1 l2 -> Hl1. by apply remove_first_split.
  - split; [apply remove_first_NoDup|done].
Qed.

Lemma one_line_cons c t :
  one_line (String c t) ↔ c ≠ CR ∧ c ≠ LF ∧ one_line t.
Proof.
  unfold one_line. cbn. split.
  - intros Hall. destruct (Hall c) as [? ?]; [set_solver|].
    split; [done|]. split; [done|]. intros c' Hc'. apply Hall. set_solver.
  - intros (? & ? & Ht) c' [->|Hc']%elem_of_cons; [done|]. by apply Ht.
Qed.

(** A computable test for [one_line]. *)
Lemma one_line_check t :
  forallb (λ c, negb (Ascii.eqb c CR) && negb (Ascii.eqb c LF)) (list_ascii_of_string t) = true →
  one_line t.
Proof.
  induction t as [|c t IH]; cbn.
  - intros _ c Hc. by apply elem_of_nil in Hc.
  - intros [[Hcr Hlf]%andb_true_iff Ht]%andb_true_iff. apply one_line_cons.
    apply negb_true_iff, Ascii.eqb_neq in Hcr, Hlf. auto.
Qed.

Lemma split_lines_char c rest :
  c ≠ LF → c ≠ CR →
  split_lines (String c rest) = push_char c (split_lines rest).
Proof.
  intros Hlf Hcr. cbn [split_lines].
  rewrite (proj2 (Ascii.eqb_neq c LF) Hlf).
  destruct rest as [|c' rest']; [done|].
  by rewrite (proj2 (Ascii.eqb_neq c CR) Hcr).
Qed.

Lemma split_lines_line t : one_line t → split_lines t = [t].
Proof.
  induction t as [|c t IH]; [done|]. intros (? & ? & Ht)%one_line_cons.
  rewrite split_lines_char by done. by rewrite IH.
Qed.

Lemma split_lines_sep t eol rest :
  one_line t →
  eol = LF_string ∨ eol = CRLF_string →
  split_lines (t +:+ eol +:+ rest) = t :: split_lines rest.
Proof.
  intros Ht Heol. induction t as [|c t IH].
  - destruct Heol as [-> | ->]; reflexivity.
  - apply one_line_cons in Ht as (? & ? & Ht).
    change (String c t +:+ eol +:+ rest) with (String c (t +:+ eol +:+ rest)).
    rewrite split_lines_char by done. by rewrite IH.
Qed.

Lemma split_lines_join eol ts :
  eol = LF_string ∨ eol = CRLF_string →
  Forall one_line ts →
  split_lines (join eol ts) = match ts with [] => [""] | _ => ts end.
Proof.
  intros Heol. induction 1 as [|t ts Ht Hts IH]; [done|].
  cbn [join]. destruct ts as [|t' ts]; [by apply split_lines_line|].
  rewrite split_lines_sep by done. by rewrite IH.
Qed.

Lemma parse_join eol ts :
  eol = LF_string ∨ eol = CRLF_string →
  Forall one_line ts →
  parse (join eol ts) = filter (λ line : string, line ≠ "") ts.
Proof.
  intros Heol Hts. unfold parse. rewrite split_lines_join by done.
  by destruct ts.
Qed.

(** What [persist] writes, the constructor reads back: a supply whose
    tokens hold no carriage return and no line feed comes back with its
    tokens and its invalid tokens in their order, the empty ones dropped,
    and with nothing in use. *)
Theorem persist_load eol T :
  eol = LF_string ∨ eol = CRLF_string →
  Forall one_line (tokens T) →
  Forall one_line (invalid T) →
  load (persist eol T)
  = {| invalid := filter (λ line : string, line ≠ "") (invalid T);
       tokens := filter (λ line : string, line ≠ "") (tokens T);
       used := [] |}.
Proof.
  intros Heol Ht Hi. unfold load, persist. cbn.
  by rewrite !parse_join.
Qed.

(** The pieces of a split hold no line feed. *)
Lemma split_lines_no_LF content :
  Forall (λ t, LF ∉ list_ascii_of_string t) (split_lines content).
Proof.
  induction content as [|c rest IH]; [repeat constructor; set_solver|].
  cbn [split_lines]. destruct (Ascii.eqb c LF) eqn:Hc.
  - constructor; [set_solver|done].
  - apply Ascii.eqb_neq in Hc.
    assert (Forall (λ t, LF ∉ list_ascii_of_string t) (push_char c (split_lines rest)))
      as Hpush.
    { destruct (split_lines rest) as [|t ts]; cbn.
      - repeat constructor. set_solver.
      - apply Forall_cons in IH as [Ht Hts]. constructor; [|done]. cbn. set_solver. }
    destruct rest as [|c' rest']; [done|].
    destruct (Ascii.eqb c CR && Ascii.eqb c' LF) eqn:Hsep; [|done].
    apply andb_true_iff in Hsep as [_ Hc'%Ascii.eqb_eq]. subst c'.
    cbn [split_lines] in IH. rewrite Ascii.eqb_refl in IH.
    apply Forall_cons in IH as [_ IH]. constructor; [set_solver|done].
Qed.

(** Whatever the files hold, the tokens the constructor reads are not empty
    and hold no line feed, and nothing is in use. *)
Theorem load_tokens_are_lines fs t :
  t ∈ tokens (load fs) ∨ t ∈ invalid (load fs) →
  t ≠ "" ∧ LF ∉ list_ascii_of_string t.
Proof.
  assert (∀ content, t ∈ parse content → t ≠ "" ∧ LF ∉ list_ascii_of_string t) as Hparse.
  { intros content [Hne Hin]%list_elem_of_filter. split; [done|].
    pose proof (split_lines_no_LF content) as Hall. rewrite Forall_forall in Hall.
    by apply Hall. }
  unfold load. cbn. intros [Hin|Hin].
  - destruct (tokens_txt fs); [by apply Hparse in Hin|]. by apply elem_of_nil in Hin.
  - destruct (invalidUserTokens_txt fs); [by apply Hparse in Hin|]. by apply elem_of_nil in Hin.
Qed.

Variables (MAX_CONNECTION_RETRIES : Z) (strip : string → string).

(** A close with the code 4004 invalidates the token of the client.  When
    the supply holds each token once and its tokens are single lines, a
    process started afterwards reads a supply without that token, with the
    token among the invalid ones, and with the other tokens as they were. *)
Theorem invalid_token_stays_out eol reason S :
  let tok := token (session_client S) in
  eol = LF_string ∨ eol = CRLF_string →
  NoDup (tokens (supply S)) →
  Forall one_line (tokens (supply S)) →
  Forall one_line (invalid (supply S)) →
  one_line tok →
  tok ≠ "" →
  let T := load (files (onClose MAX_CONNECTION_RETRIES strip eol 4004 reason S).1) in
  (tok ∉ tokens T)
  ∧ tok ∈ invalid T
  ∧ ∀ t, t ≠ tok → t ≠ "" → (t ∈ tokens T ↔ t ∈ tokens (supply S)).
Proof.
  cbn zeta. intros Heol Hnd Ht Hi Htok Hne.
  destruct S as [c T fs]. cbn [session_client supply] in *.
  unfold onClose. cbn [session_client supply files].
  change (4004 =? 4004) with true. change (4004 =? 4444) with false. cbn iota.
  assert (token (after (stopHeartbeat (set_state (Some DISCONNECTED) c))) = token c) as ->
    by done.
  unfold invalidate.
  set (T' := {| invalid := invalid T ++ [token c];
                tokens := remove_first (token c) (tokens T);
                used := remove_first (token c) (used T) |}).
  assert (files (if shouldAttempt MAX_CONNECTION_RETRIES
                      (after (stopHeartbeat (set_state (Some DISCONNECTED) c)))
                 then _ else _).1 = persist eol T') as ->
    by (by destruct (shouldAttempt _ _)).
  assert (Forall one_line (tokens T')) as Ht'.
  { cbn. rewrite Forall_forall in Ht |- *. intros t Hin. apply Ht.
    by apply (remove_first_subseteq (token c)). }
  assert (Forall one_line (invalid T')) as Hi'.
  { cbn. apply Forall_app. split; [done|]. by apply Forall_singleton. }
  unfold load, persist. cbn [tokens_txt invalidUserTokens_txt from_option tokens invalid].
  rewrite !parse_join by done. cbn [tokens invalid T']. split; [|split].
  - rewrite list_elem_of_filter. intros [_ Hin]. by apply (remove_first_NoDup (token c) _ Hnd).
  - rewrite list_elem_of_filter. split; [done|]. set_solver.
  - intros t Htt Hte. rewrite list_elem_of_filter, remove_first_other by done. tauto.
Qed.

End TokensMore.

(** A supply of three tokens written with line feeds and read back. *)
Lemma persist_load_witness :
  let T := Tokens.mk ["bad"] ["alpha"; ""; "beta"] ["alpha"] in
  Tokens.load (Tokens.persist Tokens.LF_string T) = Tokens.mk ["bad"] ["alpha"; "beta"] [].
Proof.
  cbn zeta.
  rewrite (persist_load Tokens.LF_string (Tokens.mk ["bad"] ["alpha"; ""; "beta"] ["alpha"])).
  - reflexivity.
  - by left.
  - repeat (constructor; [apply one_line_check; reflexivity|]). constructor.
  - repeat (constructor; [apply one_line_check; reflexivity|]). constructor.
Defined.

(** The file of the scenario holds a line feed after a carriage return and
    an empty line; the tokens read are the two lines. *)
Lemma load_tokens_are_lines_witness :
  let fs := {| Tokens.tokens_txt :=
                 Some ("alpha" +:+ Tokens.CRLF_string +:+ Tokens.LF_string +:+ "beta");
               Tokens.invalidUserTokens_txt := None |} in
  Tokens.tokens (Tokens.load fs) = ["alpha"; "beta"]
  ∧ "beta" ≠ "" ∧ Tokens.LF ∉ list_ascii_of_string "beta".
Proof.
  cbn zeta. split; [vm_compute; reflexivity|].
  apply (load_tokens_are_lines
           {| Tokens.tokens_txt :=
                Some ("alpha" +:+ Tokens.CRLF_string +:+ Tokens.LF_string +:+ "beta");
              Tokens.invalidUserTokens_txt := None |} "beta").
  left. vm_compute. apply elem_of_cons. right. apply elem_of_cons. by left.
Defined.

(** The client of the scenario is closed with 4004; the supply held its
    token and another one. *)
Lemma invalid_token_stays_out_witness :
  let S := {| session_client := Scenario.client0;
              supply := Tokens.mk [] ["token"; "spare"] [];
              files := {| Tokens.tokens_txt := None;
                          Tokens.invalidUserTokens_txt := None |} |} in
  let T := Tokens.load (files (onClose 5 (λ t, t) Tokens.LF_string 4004 "" S).1) in
  ("token" ∉ Tokens.tokens T) ∧ "token" ∈ Tokens.invalid T.
Proof.
  cbn zeta.
  pose proof (invalid_token_stays_out 5 (λ t, t) Tokens.LF_string ""
                {| session_client := Scenario.client0;
                   supply := Tokens.mk [] ["token"; "spare"] [];
                   files := {| Tokens.tokens_txt := None;
                               Tokens.invalidUserTokens_txt := None |} |}) as Hout.
  cbn zeta in Hout.
  destruct Hout as (Hgone & Hbad & _).
  - by left.
  - cbn. apply NoDup_cons. split; [|apply NoDup_singleton].
    intros Hin. apply elem_of_cons in Hin as [[=]|Hin]. by apply elem_of_nil in Hin.
  - cbn. repeat (constructor; [apply one_line_check; reflexivity|]). constructor.
  - constructor.
  - apply one_line_check. reflexivity.
  - discriminate.
  - split; [exact Hgone | exact Hbad].
Defined.
